(** * RoadLocale: message catalogs, plural rules and message formatting

    A shallow embedding of [src/roadlocale/locale.py] and the properties its
    specification states about it.

    Conventions of the embedding.
    - A Python [str] is a Rocq [string] that holds its UTF-8 encoding.
      Every character the code looks for is an ASCII one, which is one byte
      that occurs in no other character, with one exception: the class
      [\w] of the placeholder pattern, which has characters outside ASCII.
      These are decoded, and whether a code point above 127 is
      alphanumeric is a table of the interpreter that is a parameter here.
      [int()] of a text with a character outside ASCII is not modelled.
    - The interpreter converts between [int] and [str] up to 4300 digits
      (the default of [sys.set_int_max_str_digits]); beyond, [int()],
      [str()] and the formatting of an int raise [ValueError].
    - A Python [dict] is a [gmap]; [dict.get(k)] is the lookup [m !! k].
    - A Python [int] is a [Z].  A Python [float] is a sign, a mantissa and
      a binary exponent (or an infinity, or NaN); every IEEE double is such
      a value and the operations used here ([abs], comparison with an
      integer, [%] on a non-negative operand, fixed-point formatting) are
      exact on doubles, so no rounding has to be modelled.
    - Code that can raise returns a [result]. *)

From Stdlib Require Import ZArith NArith Bool List Ascii String DecimalString Lia.
From Stdlib Require DecimalN.
From stdpp Require Import base option gmap strings list fin_maps.

Local Open Scope string_scope.
Local Open Scope Z_scope.

(** ** Numbers *)

Inductive pyfloat :=
| FFin (neg : bool) (m : N) (e : Z)   (* (-1)^neg * m * 2^e *)
| FInf (neg : bool)
| FNaN.

Inductive number :=
| NInt (z : Z)
| NFloat (f : pyfloat).

(** The result of [abs(n)]: a number without sign. *)
Inductive magnitude :=
| MInt (n : N)
| MFin (m : N) (e : Z)                (* m * 2^e *)
| MInf
| MNaN.

Definition py_abs (n : number) : magnitude :=
  match n with
  | NInt z => MInt (Z.abs_N z)
  | NFloat (FFin _ m e) => MFin m e
  | NFloat (FInf _) => MInf
  | NFloat FNaN => MNaN
  end.

(** Comparison of a magnitude with an integer constant; NaN is unordered. *)
Definition mag_cmp (a : magnitude) (k : N) : option comparison :=
  match a with
  | MInt n => Some (n ?= k)%N
  | MFin m e =>
      if (0 <=? e)%Z then Some (m * 2 ^ Z.to_N e ?= k)%N
      else Some (m ?= k * 2 ^ Z.to_N (- e))%N
  | MInf => Some Gt
  | MNaN => None
  end.

(** [a == k], [a != k], [a < k], [lo <= a <= hi], [a in ks]. *)
Definition mag_eqb (a : magnitude) (k : N) : bool :=
  match mag_cmp a k with Some Eq => true | _ => false end.

Definition mag_neqb (a : magnitude) (k : N) : bool := negb (mag_eqb a k).

Definition mag_ltb (a : magnitude) (k : N) : bool :=
  match mag_cmp a k with Some Lt => true | _ => false end.

Definition mag_geb (a : magnitude) (k : N) : bool :=
  match mag_cmp a k with Some Eq | Some Gt => true | _ => false end.

Definition mag_leb (a : magnitude) (k : N) : bool :=
  match mag_cmp a k with Some Eq | Some Lt => true | _ => false end.

Definition mag_between (lo : N) (a : magnitude) (hi : N) : bool :=
  mag_geb a lo && mag_leb a hi.

Definition mag_in (a : magnitude) (ks : list N) : bool :=
  existsb (mag_eqb a) ks.

(** [a % k] for a positive integer constant [k].  On an [int] this is the
    integer remainder; on a non-negative finite float it is [fmod], which is
    exact; an infinite or NaN operand gives NaN. *)
Definition mag_mod (a : magnitude) (k : N) : magnitude :=
  match a with
  | MInt n => MInt (n mod k)%N
  | MFin m e =>
      if (0 <=? e)%Z then MFin ((m * 2 ^ Z.to_N e) mod k)%N 0
      else MFin (m mod (k * 2 ^ Z.to_N (- e)))%N e
  | MInf => MNaN
  | MNaN => MNaN
  end.

(** ** Plural rules *)

Inductive PluralRule := ZERO | ONE | TWO | FEW | MANY | OTHER.

Definition rule_value (r : PluralRule) : string :=
  match r with
  | ZERO => "zero" | ONE => "one" | TWO => "two"
  | FEW => "few" | MANY => "many" | OTHER => "other"
  end.

(** [language in [...]] *)
Definition str_in (s : string) (l : list string) : bool :=
  existsb (String.eqb s) l.

(** [PluralRules.get_rule] *)
Definition get_rule (language : string) (n : number) : PluralRule :=
  let n := py_abs n in
  if str_in language ["en"; "de"; "es"; "it"; "pt"; "nl"] then
    if mag_eqb n 1 then ONE else OTHER
  else if String.eqb language "fr" then
    if mag_ltb n 2 then ONE else OTHER
  else if str_in language ["ru"; "pl"; "uk"] then
    let n_mod_10 := mag_mod n 10 in
    let n_mod_100 := mag_mod n 100 in
    if mag_eqb n_mod_10 1 && mag_neqb n_mod_100 11 then ONE
    else if mag_in n_mod_10 [2; 3; 4]%N && negb (mag_in n_mod_100 [12; 13; 14]%N)
    then FEW
    else MANY
  else if String.eqb language "ar" then
    if mag_eqb n 0 then ZERO
    else if mag_eqb n 1 then ONE
    else if mag_eqb n 2 then TWO
    else if mag_between 3 (mag_mod n 100) 10 then FEW
    else if mag_between 11 (mag_mod n 100) 99 then MANY
    else OTHER
  else
    if mag_eqb n 1 then ONE else OTHER.

(** The decision table of the specification, by language family. *)
Inductive family := EnglishLike | French | Slavic | Arabic | Unlisted.

Definition family_of (language : string) : family :=
  if str_in language ["en"; "de"; "es"; "it"; "pt"; "nl"] then EnglishLike
  else if str_in language ["fr"] then French
  else if str_in language ["ru"; "pl"; "uk"] then Slavic
  else if str_in language ["ar"] then Arabic
  else Unlisted.

Definition categorize_spec (language : string) (count : magnitude) : PluralRule :=
  match family_of language with
  | EnglishLike | Unlisted => if mag_eqb count 1 then ONE else OTHER
  | French => if mag_ltb count 2 then ONE else OTHER
  | Slavic =>
      let d10 := mag_mod count 10 in
      let d100 := mag_mod count 100 in
      if mag_eqb d10 1 && negb (mag_eqb d100 11) then ONE
      else if mag_in d10 [2; 3; 4]%N && negb (mag_in d100 [12; 13; 14]%N) then FEW
      else MANY
  | Arabic =>
      if mag_eqb count 0 then ZERO
      else if mag_eqb count 1 then ONE
      else if mag_eqb count 2 then TWO
      else if mag_between 3 (mag_mod count 100) 10 then FEW
      else if mag_between 11 (mag_mod count 100) 99 then MANY
      else OTHER
  end.

(** The same table on an integer count, in the arithmetic of [N]. *)
Definition categorize_int (language : string) (count : N) : PluralRule :=
  match family_of language with
  | EnglishLike | Unlisted => if (count =? 1)%N then ONE else OTHER
  | French => if (count <? 2)%N then ONE else OTHER
  | Slavic =>
      let d10 := (count mod 10)%N in
      let d100 := (count mod 100)%N in
      if (d10 =? 1)%N && negb (d100 =? 11)%N then ONE
      else if ((2 <=? d10) && (d10 <=? 4))%N && negb ((12 <=? d100) && (d100 <=? 14))%N
      then FEW
      else MANY
  | Arabic =>
      let d100 := (count mod 100)%N in
      if (count =? 0)%N then ZERO
      else if (count =? 1)%N then ONE
      else if (count =? 2)%N then TWO
      else if ((3 <=? d100) && (d100 <=? 10))%N then FEW
      else if ((11 <=? d100) && (d100 <=? 99))%N then MANY
      else OTHER
  end.

(** ** Results of code that can raise *)

Inductive exn := ValueError | TypeError | AttributeError | KeyError | IndexError.

(** [Unmodelled] marks a call of a library function on an input outside the
    fragment of it that is modelled here; nothing is stated about it. *)
Inductive result (A : Type) :=
| Ok (a : A)
| Raise (e : exn)
| Unmodelled.
Arguments Ok {A} a.
Arguments Raise {A} e.
Arguments Unmodelled {A}.

#[global] Instance result_ret : MRet result := fun A a => Ok a.

#[global] Instance result_bind : MBind result := fun A B k r =>
  match r with
  | Ok a => k a
  | Raise e => Raise e
  | Unmodelled => Unmodelled
  end.

(** ** Strings *)

Definition truthy (s : string) : bool := negb (String.eqb s "").

(** [a or b] on strings and on optional strings. *)
Definition str_or (a : option string) (b : string) : string :=
  match a with
  | Some s => if truthy s then s else b
  | None => b
  end.

Definition digit_char (n : N) : ascii := ascii_of_N (48 + n mod 10).

Definition is_digit (c : ascii) : bool :=
  let n := N_of_ascii c in ((48 <=? n) && (n <=? 57))%N.

Definition is_alpha (c : ascii) : bool :=
  let n := N_of_ascii c in
  (((65 <=? n) && (n <=? 90)) || ((97 <=? n) && (n <=? 122)))%N.

(** The ASCII characters of the class [\w]. *)
Definition is_word (c : ascii) : bool :=
  is_alpha c || is_digit c || Ascii.eqb c "_".

(** A byte that is an ASCII character. *)
Definition is_ascii (c : ascii) : bool := (N_of_ascii c <? 128)%N.

Fixpoint all_chars (p : ascii -> bool) (s : string) : bool :=
  match s with
  | "" => true
  | String c s' => p c && all_chars p s'
  end.

(** The six bits a continuation byte of UTF-8 carries. *)
Definition continuation (c : ascii) : option N :=
  let b := N_of_ascii c in
  if ((128 <=? b) && (b <? 192))%N then Some (b - 128)%N else None.

(** The character at the head of a text: its code point and the number of
    bytes it is written in. *)
Definition utf8_head (s : string) : option (N * nat) :=
  match s with
  | "" => None
  | String c0 r =>
      let b0 := N_of_ascii c0 in
      if (b0 <? 128)%N then Some (b0, 1%nat)
      else if (b0 <? 192)%N then None
      else if (b0 <? 224)%N then
        match r with
        | String c1 _ =>
            x1 ← continuation c1;
            Some ((b0 - 192) * 64 + x1, 2%nat)%N
        | _ => None
        end
      else if (b0 <? 240)%N then
        match r with
        | String c1 (String c2 _) =>
            x1 ← continuation c1;
            x2 ← continuation c2;
            Some (((b0 - 224) * 64 + x1) * 64 + x2, 3%nat)%N
        | _ => None
        end
      else if (b0 <? 248)%N then
        match r with
        | String c1 (String c2 (String c3 _)) =>
            x1 ← continuation c1;
            x2 ← continuation c2;
            x3 ← continuation c3;
            Some ((((b0 - 240) * 64 + x1) * 64 + x2) * 64 + x3, 4%nat)%N
        | _ => None
        end
      else None
  end.

(** The white space [int] ignores around the digits. *)
Definition is_space (c : ascii) : bool :=
  let n := N_of_ascii c in
  (((9 <=? n) && (n <=? 13)) || (n =? 32))%N.

(** Decimal digits of a natural number, without sign. *)
Definition digits (n : N) : string := NilZero.string_of_uint (N.to_uint n).

(** [k] digits of [r], most significant first, with leading zeros. *)
Fixpoint fixed_digits (k : nat) (r : N) : string :=
  match k with
  | O => ""
  | S k' => String (digit_char (r / 10 ^ N.of_nat k')) (fixed_digits k' r)
  end.

(** Digits in groups of three counted from the right, joined by [sep]. *)
Fixpoint group_with (sep : string) (s : string) : string :=
  match s with
  | "" => ""
  | String c s' =>
      String c
        (if (negb (String.length s' =? 0)%nat) && (String.length s' mod 3 =? 0)%nat
         then sep +:+ group_with sep s'
         else group_with sep s')
  end.

(** [str.replace(old, new)] for a non-empty [old]: occurrences are replaced
    from left to right and do not overlap.  [skip] counts the characters of
    an occurrence that are still to be dropped. *)
Fixpoint replace_from (old new : string) (skip : nat) (s : string) : string :=
  match s with
  | "" => ""
  | String c s' =>
      match skip with
      | S k => replace_from old new k s'
      | O =>
          if String.prefix old s
          then new +:+ replace_from old new (String.length old - 1) s'
          else String c (replace_from old new 0 s')
      end
  end.

(** With an empty [old], Python inserts [new] before every character and at
    the end. *)
Fixpoint intersperse (new s : string) : string :=
  match s with
  | "" => new
  | String c s' => new +:+ String c (intersperse new s')
  end.

Definition replace (old new s : string) : string :=
  if String.eqb old "" then intersperse new s else replace_from old new 0 s.

(** [s.split(sep)] for a one-character separator. *)
Fixpoint split_char (sep : ascii) (s : string) : list string :=
  match s with
  | "" => [""]
  | String c s' =>
      if Ascii.eqb c sep then "" :: split_char sep s'
      else match split_char sep s' with
           | [] => [String c ""]
           | w :: ws => String c w :: ws
           end
  end.

Fixpoint lstrip (s : string) : string :=
  match s with
  | String c s' => if is_space c then lstrip s' else s
  | "" => ""
  end.

Fixpoint rstrip (s : string) : string :=
  match s with
  | "" => ""
  | String c s' =>
      match rstrip s' with
      | "" => if is_space c then "" else String c ""
      | r => String c r
      end
  end.

Definition strip (s : string) : string := rstrip (lstrip s).

(** The digits of an [int] literal: decimal digits, single underscores
    allowed between digits.  [prev] tells whether the previous character was
    a digit; [acc] is the value read so far. *)
Fixpoint int_digits (prev : bool) (acc : N) (s : string) : option N :=
  match s with
  | "" => if prev then Some acc else None
  | String c s' =>
      if is_digit c then int_digits true (10 * acc + (N_of_ascii c - 48))%N s'
      else if Ascii.eqb c "_" && prev then
        match s' with
        | String d _ => if is_digit d then int_digits false acc s' else None
        | "" => None
        end
      else None
  end.

(** The number of decimal digits in a text. *)
Fixpoint count_digits (s : string) : nat :=
  match s with
  | "" => O
  | String c s' => if is_digit c then S (count_digits s') else count_digits s'
  end.

(** The most digits in a conversion between [int] and [str],
    [sys.int_info.default_max_str_digits]. *)
Definition max_str_digits : nat := 4300.

(** An int that can be written: it has at most [max_str_digits] digits. *)
Definition int_digits_ok (z : Z) : bool :=
  (String.length (digits (Z.abs_N z)) <=? max_str_digits)%nat.

(** [int(s)] for a string [s], base 10.  A literal of more than
    [max_str_digits] digits is a [ValueError]; a text with a character
    outside ASCII, where [int] also reads the decimal digits and the white
    space of other scripts, is not modelled. *)
Definition py_int (s : string) : result Z :=
  if negb (all_chars is_ascii s) then Unmodelled
  else
    let body := strip s in
    let '(neg, ds) :=
      match body with
      | String "-" r => (true, r)
      | String "+" r => (false, r)
      | _ => (false, body)
      end in
    match int_digits false 0 ds with
    | Some n =>
        if (max_str_digits <? count_digits ds)%nat then Raise ValueError
        else Ok (if neg then - Z.of_N n else Z.of_N n)
    | None => Raise ValueError
    end.

(** ** Number formatting of the format mini-language *)

(** [num / den] rounded to the nearest integer, ties to even. *)
Definition round_half_even (num den : N) : N :=
  let q := (num / den)%N in
  let r := (num mod den)%N in
  if (den <? 2 * r)%N then (q + 1)%N
  else if (2 * r =? den)%N && N.odd q then (q + 1)%N
  else q.

(** [m * 2^e * 10^d], correctly rounded to an integer. *)
Definition scaled (m : N) (e : Z) (d : nat) : N :=
  if (0 <=? e)%Z then (m * 2 ^ Z.to_N e * 10 ^ N.of_nat d)%N
  else round_half_even (m * 10 ^ N.of_nat d) (2 ^ Z.to_N (- e)).

(** A finite float in fixed-point notation with [d] fractional digits, the
    integer digits grouped with [tsep], the fraction introduced by [dsep];
    no fraction and no [dsep] when [d = 0]. *)
Definition render_fixed (tsep dsep : string) (neg : bool) (m : N) (e : Z) (d : nat)
  : string :=
  let r := scaled m e d in
  (if neg then "-" else "")
  +:+ group_with tsep (digits (r / 10 ^ N.of_nat d))
  +:+ (if (d =? 0)%nat then "" else dsep +:+ fixed_digits d r).

(** The largest precision a format spec can have, [2**31 - 1]. *)
Definition max_precision : Z := 2147483647.

(** [f"{value:,.{decimals}f}"] for a float: a negative precision is no
    format spec, and one above [max_precision] is too big; both are a
    [ValueError], also for an infinity and a NaN. *)
Definition format_float_f (f : pyfloat) (decimals : Z) : result string :=
  if ((decimals <? 0) || (max_precision <? decimals))%Z then Raise ValueError
  else match f with
       | FFin neg m e => Ok (render_fixed "," "." neg m e (Z.to_nat decimals))
       | FInf neg => Ok (if neg then "-inf" else "inf")
       | FNaN => Ok "nan"
       end.

(** An integer with its digits grouped by [tsep]. *)
Definition render_int (tsep : string) (z : Z) : string :=
  (if (z <? 0)%Z then "-" else "") +:+ group_with tsep (digits (Z.abs_N z)).

(** [f"{value:,}"] for an int. *)
Definition format_int_grouped (z : Z) : result string :=
  if int_digits_ok z then Ok (render_int "," z) else Raise ValueError.

(** ** Values *)

Record pydate := { year : N; month : N; day : N }.
Record pytime := { hour : N; minute : N; second : N; microsecond : N }.

Definition midnight : pytime :=
  {| hour := 0; minute := 0; second := 0; microsecond := 0 |}.

(** The values a placeholder can be bound to. *)
Inductive pyvalue :=
| VNone
| VStr (s : string)
| VNum (n : number)
| VDate (d : pydate)
| VDateTime (d : pydate) (t : pytime).

(** What the code takes from the interpreter and is not modelled further:
    [repr] of a float (the shortest decimal that reads back as the same
    double), [strftime], and [str.isalnum] on a character outside ASCII,
    given by its code point (the alphanumeric characters of the Unicode
    database of the interpreter). *)
Class PyRuntime := {
  float_repr : pyfloat -> string;
  strftime : pydate -> pytime -> string -> result string;
  unicode_alnum : N -> bool
}.

(** [n] in at least [k] digits, padded with zeros on the left. *)
Definition zero_pad (k : nat) (n : N) : string :=
  if (n <? 10 ^ N.of_nat k)%N then fixed_digits k n else digits n.

Definition date_str (d : pydate) : string :=
  zero_pad 4 (year d) +:+ "-" +:+ zero_pad 2 (month d) +:+ "-" +:+ zero_pad 2 (day d).

Definition time_str (t : pytime) : string :=
  zero_pad 2 (hour t) +:+ ":" +:+ zero_pad 2 (minute t) +:+ ":" +:+ zero_pad 2 (second t)
  +:+ (if (microsecond t =? 0)%N then "" else "." +:+ zero_pad 6 (microsecond t)).

(** [str(z)] for an int. *)
Definition int_str (z : Z) : result string :=
  if int_digits_ok z then Ok ((if (z <? 0)%Z then "-" else "") +:+ digits (Z.abs_N z))
  else Raise ValueError.

(** [str(value)] *)
Definition py_str `{PyRuntime} (v : pyvalue) : result string :=
  match v with
  | VNone => Ok "None"
  | VStr s => Ok s
  | VNum (NInt z) => int_str z
  | VNum (NFloat f) => Ok (float_repr f)
  | VDate d => Ok (date_str d)
  | VDateTime d t => Ok (date_str d +:+ " " +:+ time_str t)
  end.

(** [abs(value)] *)
Definition mag_number (a : magnitude) : number :=
  match a with
  | MInt n => NInt (Z.of_N n)
  | MFin m e => NFloat (FFin false m e)
  | MInf => NFloat (FInf false)
  | MNaN => NFloat FNaN
  end.

Definition value_abs (v : pyvalue) : result pyvalue :=
  match v with
  | VNum n => Ok (VNum (mag_number (py_abs n)))
  | _ => Raise TypeError
  end.

(** [value < 0] *)
Definition value_negative (v : pyvalue) : result bool :=
  match v with
  | VNum (NInt z) => Ok (z <? 0)%Z
  | VNum (NFloat (FFin neg m _)) => Ok (neg && negb (m =? 0)%N)
  | VNum (NFloat (FInf neg)) => Ok neg
  | VNum (NFloat FNaN) => Ok false
  | _ => Raise TypeError
  end.

(** ** Messages, locales and catalogs *)

Record Message := {
  key : string;
  value : string;
  plural_forms : gmap string string;
  context : string;
  description : string
}.

Record Locale := {
  code : string;
  language : string;
  region : option string;
  name : string;
  direction : string;
  date_format : string;
  time_format : string;
  datetime_format : string;
  decimal_separator : string;
  thousands_separator : string;
  currency_symbol : string;
  currency_format : string
}.

(** [Locale(code=..., language=..., name=...)] with the defaults of the
    dataclass for the other fields. *)
Definition mkLocale (code language name : string) : Locale :=
  {| code := code; language := language; region := None; name := name;
     direction := "ltr"; date_format := "%Y-%m-%d"; time_format := "%H:%M:%S";
     datetime_format := "%Y-%m-%d %H:%M:%S"; decimal_separator := ".";
     thousands_separator := ","; currency_symbol := "$";
     currency_format := "{symbol}{amount}" |}.

Record MessageCatalog := {
  cat_locale : Locale;
  messages : gmap string Message
}.

(** [MessageCatalog(locale)] *)
Definition new_catalog (l : Locale) : MessageCatalog :=
  {| cat_locale := l; messages := ∅ |}.

(** [Message(key=key, value=value)] *)
Definition simple_message (k v : string) : Message :=
  {| key := k; value := v; plural_forms := ∅; context := ""; description := "" |}.

(** [f"{context}:{key}" if context else key] *)
Definition full_key (context key : string) : string :=
  if truthy context then context +:+ ":" +:+ key else key.

(** [MessageCatalog.add] *)
Definition add (c : MessageCatalog) (message : Message) : MessageCatalog :=
  let key := full_key (context message) (key message) in
  {| cat_locale := cat_locale c; messages := <[key := message]> (messages c) |}.

(** [MessageCatalog.get]: [a or b] on optional messages takes [b] when [a]
    is [None]; a [Message] object is never falsy. *)
Definition get (c : MessageCatalog) (key context : string) : option Message :=
  match messages c !! full_key context key with
  | Some m => Some m
  | None => messages c !! key
  end.

(** [MessageCatalog.add_messages], over the items of the dict in order. *)
Definition add_messages (c : MessageCatalog) (msgs : list (string * string))
  : MessageCatalog :=
  fold_left (fun c kv => add c (simple_message kv.1 kv.2)) msgs c.

(** *** Import and export *)

(** A parsed entry object: the fields the import reads, each optional. *)
Record entry_obj := {
  o_value : option string;
  o_one : option string;
  o_plural : option (gmap string string);
  o_context : option string;
  o_description : option string
}.

(** A value of the parsed mapping: a string, an object, or anything else. *)
Inductive entry :=
| EStr (s : string)
| EObj (o : entry_obj)
| EOther.

(** The message built from an object in [load_json]:
    [value.get("value", value.get("one", ""))] and so on. *)
Definition message_of_obj (k : string) (o : entry_obj) : Message :=
  {| key := k;
     value := default (default "" (o_one o)) (o_value o);
     plural_forms := default ∅ (o_plural o);
     context := default "" (o_context o);
     description := default "" (o_description o) |}.

(** One iteration of the loop of [load_json]. *)
Definition load_item (st : MessageCatalog * nat) (kv : string * entry)
  : MessageCatalog * nat :=
  let c :=
    match kv.2 with
    | EStr s => add st.1 (simple_message kv.1 s)
    | EObj o => add st.1 (message_of_obj kv.1 o)
    | EOther => st.1
    end in
  (c, S st.2).

(** [MessageCatalog.load_json] after [json.load]: [data] holds the items of
    the parsed mapping in order. *)
Definition load_json (c : MessageCatalog) (data : list (string * entry))
  : MessageCatalog * nat :=
  fold_left load_item data (c, O).

(** The body of the loop of [to_dict]. *)
Definition export_message (msg : Message) : entry :=
  if decide (plural_forms msg = ∅) then EStr (value msg)
  else EObj {| o_value := Some (value msg); o_one := None;
               o_plural := Some (plural_forms msg);
               o_context := None; o_description := None |}.

(** [MessageCatalog.to_dict] *)
Definition to_dict (c : MessageCatalog) : gmap string entry :=
  export_message <$> messages c.

(** The default text the specification gives to an imported object. *)
Definition spec_default_text (o : entry_obj) : string :=
  match o_value o with
  | Some v => v
  | None => default "" (o_plural o ≫= (fun p => p !! "one"))
  end.

(** ** [str.format] with keyword arguments

    The modelled fragment: literal text, the escapes [{{] and [}}], and
    replacement fields that are a plain name written in ASCII.  A field
    with a conversion, a format specification, an attribute or an index is
    [Unmodelled]. *)

Definition field_special (c : ascii) : bool :=
  existsb (Ascii.eqb c) ["{"; "!"; ":"; "."; "["]%char.

Fixpoint all_digits (s : string) : bool :=
  match s with
  | "" => true
  | String c s' => is_digit c && all_digits s'
  end.

(** An empty or numeric field name is positional, and there are no
    positional arguments.  Not modelled: a name with a character outside
    ASCII, where the digits of other scripts are read as an index too, and
    an index above [2**31 - 1], which is an error of its own beyond the
    largest index of the platform. *)
Definition format_field (kw : gmap string string) (name : string) : result string :=
  if negb (all_chars is_ascii name) then Unmodelled
  else if all_digits name then
    match int_digits false 0 name with
    | Some n => if (n <=? 2147483647)%N then Raise IndexError else Unmodelled
    | None => Raise IndexError
    end
  else match kw !! name with
       | Some v => Ok v
       | None => Raise KeyError
       end.

Fixpoint str_format_from (kw : gmap string string) (field : option string)
    (s : string) : result string :=
  match s with
  | "" => match field with None => Ok "" | Some _ => Raise ValueError end
  | String c s' =>
      match field with
      | Some acc =>
          if Ascii.eqb c "}" then
            v ← format_field kw acc;
            r ← str_format_from kw None s';
            Ok (v +:+ r)
          else if field_special c then Unmodelled
          else str_format_from kw (Some (acc +:+ String c "")) s'
      | None =>
          if Ascii.eqb c "{" then
            match s' with
            | String "{" s'' => r ← str_format_from kw None s''; Ok (String "{" r)
            | _ => str_format_from kw (Some "") s'
            end
          else if Ascii.eqb c "}" then
            match s' with
            | String "}" s'' => r ← str_format_from kw None s''; Ok (String "}" r)
            | _ => Raise ValueError
            end
          else r ← str_format_from kw None s'; Ok (String c r)
      end
  end.

Definition str_format (template : string) (kw : gmap string string) : result string :=
  str_format_from kw None template.

(** ** Regular expressions

    The fragment of [re] the placeholder pattern is written in, matched by
    backtracking with greedy quantifiers as [re] does. *)

Inductive regex :=
| RChar (c : ascii)                 (* a literal character *)
| RPlus (cls : string -> nat)       (* one or more characters of a class, greedy *)
| RSeq (r1 r2 : regex)
| ROpt (r : regex)                  (* (?:r)?, greedy *)
| RGroup (i : nat) (r : regex).     (* capturing group number i *)

(** The text a match consumed: [s] without its suffix [rest]. *)
Definition consumed (s rest : string) : string :=
  String.substring 0 (String.length s - String.length rest) s.

(** A class of characters is given by the number of bytes of the character
    of the class at the head of a text, [0] when there is none.

    [plus_go] is inside a run of characters of the class [cls], with
    [skip] bytes of the current character still to be passed; between two
    characters it first tries to go on with one more character, then to end
    the run and hand on to the continuation [k]. *)
Fixpoint plus_go {A} (cls : string -> nat) (skip : nat) (s : string)
    (k : string -> option A) : option A :=
  match s with
  | "" => match skip with O => k "" | S _ => None end
  | String _ s' =>
      match skip with
      | S n => plus_go cls n s' k
      | O =>
          match cls s with
          | S n =>
              match plus_go cls n s' k with
              | Some a => Some a
              | None => k s
              end
          | O => k s
          end
      end
  end.

(** [cls+] followed by the continuation [k]: the longest run first, then
    shorter ones. *)
Definition plus_match {A} (cls : string -> nat) (s : string) (k : string -> option A)
  : option A :=
  match cls s, s with
  | S n, String _ s' => plus_go cls n s' k
  | _, _ => None
  end.

Fixpoint re_match {A} (r : regex) (s : string) (caps : gmap nat string)
    (k : string -> gmap nat string -> option A) : option A :=
  match r with
  | RChar c =>
      match s with
      | String c' s' => if Ascii.eqb c c' then k s' caps else None
      | "" => None
      end
  | RPlus cls => plus_match cls s (fun rest => k rest caps)
  | RSeq r1 r2 => re_match r1 s caps (fun rest caps' => re_match r2 rest caps' k)
  | ROpt r1 =>
      match re_match r1 s caps k with
      | Some a => Some a
      | None => k s caps
      end
  | RGroup i r1 =>
      re_match r1 s caps (fun rest caps' => k rest (<[i := consumed s rest]> caps'))
  end.

(** A match object: [group(0)], the numbered groups, and the text after the
    match. *)
Record rmatch := {
  whole : string;
  groups : gmap nat string;
  after : string
}.

Definition group (m : rmatch) (i : nat) : option string :=
  match i with
  | O => Some (whole m)
  | _ => groups m !! i
  end.

(** [pattern.match] at the start of [s]. *)
Definition re_match_at (r : regex) (s : string) : option rmatch :=
  re_match r s ∅ (fun rest caps =>
    Some {| whole := consumed s rest; groups := caps; after := rest |}).

(** [pattern.sub(repl, s)] for a pattern that matches no empty string:
    matches are found from left to right and do not overlap, and [repl] is
    called on each as it is found.  [skip] counts the characters of the
    current match still to be passed over. *)
Fixpoint re_sub_from (r : regex) (repl : rmatch -> result string) (skip : nat)
    (s : string) : result string :=
  match s with
  | "" => Ok ""
  | String c s' =>
      match skip with
      | S n => re_sub_from r repl n s'
      | O =>
          match re_match_at r s with
          | Some m =>
              a ← repl m;
              b ← re_sub_from r repl (String.length (whole m) - 1) s';
              Ok (a +:+ b)
          | None => b ← re_sub_from r repl 0 s'; Ok (String c b)
          end
      end
  end.

Definition re_sub (r : regex) (repl : rmatch -> result string) (s : string)
  : result string :=
  re_sub_from r repl 0 s.

(** The class [\w] of a pattern on [str]: a letter, a digit or the
    underscore of ASCII, or a character outside ASCII that is alphanumeric. *)
Definition word_len `{PyRuntime} (s : string) : nat :=
  match s with
  | "" => O
  | String c _ =>
      if is_ascii c then (if is_word c then 1%nat else O)
      else match utf8_head s with
           | Some (cp, n) => if unicode_alnum cp then n else O
           | None => O
           end
  end.

(** The class [[^}]]: its characters are the bytes other than the closing
    brace, and a run of them ends where a run of characters other than the
    closing brace does. *)
Definition not_brace_len (s : string) : nat :=
  match s with
  | "" => O
  | String c _ => if Ascii.eqb c "}" then O else 1%nat
  end.

(** [re.compile(r"\{(\w+)(?::([^}]+))?\}")] *)
Definition PLACEHOLDER_PATTERN `{PyRuntime} : regex :=
  RSeq (RChar "{")
    (RSeq (RGroup 1 (RPlus word_len))
       (RSeq (ROpt (RSeq (RChar ":") (RGroup 2 (RPlus not_brace_len))))
          (RChar "}"))).

(** ** MessageFormatter *)

Record MessageFormatter := { fmt_locale : Locale }.

(** [MessageFormatter.format_number].  The first step is the f-string:
    [f"{value:,.{decimals}f}"] for a float and [f"{value:,}"] otherwise; the
    latter is an error for a string and for [None], and is [strftime(",")]
    for a date. *)
Definition format_number `{PyRuntime} (self : MessageFormatter) (value : pyvalue)
    (decimals : Z) : result string :=
  formatted ←
    match value with
    | VNum (NFloat f) => format_float_f f decimals
    | VNum (NInt z) => format_int_grouped z
    | VStr _ => Raise ValueError
    | VNone => Raise TypeError
    | VDate d => strftime d midnight ","
    | VDateTime d t => strftime d t ","
    end;
  let formatted := replace "," "__THOUSANDS__" formatted in
  let formatted := replace "." (decimal_separator (fmt_locale self)) formatted in
  let formatted :=
    replace "__THOUSANDS__" (thousands_separator (fmt_locale self)) formatted in
  Ok formatted.

(** [MessageFormatter.format_decimal] *)
Definition format_decimal `{PyRuntime} (self : MessageFormatter) (value : pyvalue)
    (places : Z) : result string :=
  format_number self value places.

(** [MessageFormatter.format_currency] *)
Definition format_currency `{PyRuntime} (self : MessageFormatter) (value : pyvalue)
    (symbol : option string) : result string :=
  let symbol := str_or symbol (currency_symbol (fmt_locale self)) in
  a ← value_abs value;
  amount ← format_decimal self a 2;
  formatted ← str_format (currency_format (fmt_locale self))
                {[ "symbol" := symbol; "amount" := amount ]};
  negative ← value_negative value;
  Ok (if negative : bool then "-" +:+ formatted else formatted).

(** [MessageFormatter.format_date]: a datetime is cut down to its date. *)
Definition format_date `{PyRuntime} (self : MessageFormatter) (value : pyvalue)
  : result string :=
  match value with
  | VDateTime d _ | VDate d => strftime d midnight (date_format (fmt_locale self))
  | _ => Raise AttributeError
  end.

(** [MessageFormatter.format_time] *)
Definition format_time `{PyRuntime} (self : MessageFormatter) (value : pyvalue)
  : result string :=
  match value with
  | VDateTime d t => strftime d t (time_format (fmt_locale self))
  | VDate d => strftime d midnight (time_format (fmt_locale self))
  | _ => Raise AttributeError
  end.

(** [MessageFormatter.format_datetime] *)
Definition format_datetime `{PyRuntime} (self : MessageFormatter) (value : pyvalue)
  : result string :=
  match value with
  | VDateTime d t => strftime d t (datetime_format (fmt_locale self))
  | VDate d => strftime d midnight (datetime_format (fmt_locale self))
  | _ => Raise AttributeError
  end.

(** [spec.split(":")[1]] *)
Definition second_field (spec : string) : result string :=
  match split_char ":" spec with
  | _ :: x :: _ => Ok x
  | _ => Raise IndexError
  end.

(** [MessageFormatter._apply_format] *)
Definition _apply_format `{PyRuntime} (self : MessageFormatter) (value : pyvalue)
    (spec : string) : result string :=
  if String.eqb spec "number" then format_number self value 0
  else if String.eqb spec "currency" then format_currency self value None
  else if String.eqb spec "date" then format_date self value
  else if String.eqb spec "time" then format_time self value
  else if String.eqb spec "datetime" then format_datetime self value
  else if String.prefix "decimal:" spec then
    field ← second_field spec;
    places ← py_int field;
    format_decimal self value places
  else py_str value.

(** The function [replace] inside [MessageFormatter.format]. *)
Definition format_replace `{PyRuntime} (self : MessageFormatter)
    (kwargs : gmap string pyvalue) (m : rmatch) : result string :=
  let name := group m 1 in
  let format_spec := group m 2 in
  match name ≫= (fun n => kwargs !! n) with
  | None => Ok (whole m)
  | Some value =>
      match format_spec with
      | Some spec =>
          if truthy spec then _apply_format self value spec else py_str value
      | None => py_str value
      end
  end.

(** ** Keyword arguments

    The values of a call arrive in [**kwargs]; a name that is a parameter of
    the called function cannot be among them (the call itself is an error),
    and [t] and [tn] hand their [**kwargs] on to [format]. *)
Definition free_of (names : list string) (kwargs : gmap string pyvalue) : Prop :=
  Forall (fun n => kwargs !! n = None) names.

Definition format_params : list string := ["self"; "template"].

(** Whether [**kwargs] holds one of the names. *)
Definition keyword_clash (names : list string) (kwargs : gmap string pyvalue) : bool :=
  existsb (fun n => match kwargs !! n with Some _ => true | None => false end) names.

(** [MessageFormatter.format], called as [format(template, **kwargs)]: the
    call is a [TypeError] when [kwargs] holds [template] or [self]. *)
Definition format `{PyRuntime} (self : MessageFormatter) (template : string)
    (kwargs : gmap string pyvalue) : result string :=
  if keyword_clash format_params kwargs then Raise TypeError
  else re_sub PLACEHOLDER_PATTERN (format_replace self kwargs) template.

(** ** Translator *)

Record Translator := {
  default_locale : string;
  current_locale : string;
  locales : gmap string Locale;
  catalogs : gmap string MessageCatalog;
  formatters : gmap string MessageFormatter;
  _fallback_chain : gmap string (list string)
}.

(** [Translator.add_locale] *)
Definition add_locale (self : Translator) (locale : Locale) : Translator :=
  {| default_locale := default_locale self;
     current_locale := current_locale self;
     locales := <[code locale := locale]> (locales self);
     catalogs := <[code locale := new_catalog locale]> (catalogs self);
     formatters := <[code locale := {| fmt_locale := locale |}]> (formatters self);
     _fallback_chain := _fallback_chain self |}.

(** [Translator.__init__] *)
Definition Translator_init (default_locale : string) : Translator :=
  add_locale
    {| default_locale := default_locale;
       current_locale := default_locale;
       locales := ∅; catalogs := ∅; formatters := ∅; _fallback_chain := ∅ |}
    (mkLocale "en" "en" "English").

(** [Translator.set_locale] *)
Definition set_locale (self : Translator) (code : string) : Translator * bool :=
  match locales self !! code with
  | Some _ =>
      ({| default_locale := default_locale self;
          current_locale := code;
          locales := locales self; catalogs := catalogs self;
          formatters := formatters self;
          _fallback_chain := _fallback_chain self |}, true)
  | None => (self, false)
  end.

(** [Translator.set_fallback_chain] *)
Definition set_fallback_chain (self : Translator) (locale : string)
    (fallbacks : list string) : Translator :=
  {| default_locale := default_locale self;
     current_locale := current_locale self;
     locales := locales self; catalogs := catalogs self;
     formatters := formatters self;
     _fallback_chain := <[locale := fallbacks]> (_fallback_chain self) |}.

(** [Translator.get_catalog] *)
Definition get_catalog (self : Translator) (locale : option string)
  : option MessageCatalog :=
  catalogs self !! str_or locale (current_locale self).

(** [Translator.load_messages] *)
Definition load_messages (self : Translator) (locale : string)
    (msgs : list (string * string)) : Translator :=
  match catalogs self !! locale with
  | Some catalog =>
      {| default_locale := default_locale self;
         current_locale := current_locale self;
         locales := locales self;
         catalogs := <[locale := add_messages catalog msgs]> (catalogs self);
         formatters := formatters self;
         _fallback_chain := _fallback_chain self |}
  | None => self
  end.

(** [self.get_catalog(locale).add(message)]: a message with plural forms is
    put into the catalog of a registered locale. *)
Definition load_plural (self : Translator) (locale : string) (message : Message)
  : Translator :=
  match catalogs self !! locale with
  | Some catalog =>
      {| default_locale := default_locale self;
         current_locale := current_locale self;
         locales := locales self;
         catalogs := <[locale := add catalog message]> (catalogs self);
         formatters := formatters self;
         _fallback_chain := _fallback_chain self |}
  | None => self
  end.

(** The loop over the fallback chain in [_find_message]. *)
Fixpoint find_in_fallbacks (cats : gmap string MessageCatalog)
    (fallbacks : list string) (key context : string) : option Message :=
  match fallbacks with
  | [] => None
  | fallback :: rest =>
      match cats !! fallback with
      | Some catalog =>
          match get catalog key context with
          | Some message => Some message
          | None => find_in_fallbacks cats rest key context
          end
      | None => find_in_fallbacks cats rest key context
      end
  end.

(** [Translator._find_message] *)
Definition _find_message (self : Translator) (key locale context : string)
  : option Message :=
  match catalogs self !! locale ≫= (fun catalog => get catalog key context) with
  | Some message => Some message
  | None =>
      let fallbacks := default [] (_fallback_chain self !! locale) in
      match find_in_fallbacks (catalogs self) fallbacks key context with
      | Some message => Some message
      | None =>
          if negb (String.eqb locale (default_locale self)) then
            match catalogs self !! default_locale self with
            | Some catalog => get catalog key context
            | None => None
            end
          else None
      end
  end.

(** [self.formatters.get(locale) or self.formatters[self.default_locale]] *)
Definition formatter_for (self : Translator) (locale : string)
  : result MessageFormatter :=
  match formatters self !! locale with
  | Some f => Ok f
  | None =>
      match formatters self !! default_locale self with
      | Some f => Ok f
      | None => Raise KeyError
      end
  end.

(** [Translator.t]; the warning logged for a missing key is left out. *)
Definition t `{PyRuntime} (self : Translator) (key : string) (locale : option string)
    (context : string) (kwargs : gmap string pyvalue) : result string :=
  let locale := str_or locale (current_locale self) in
  match _find_message self key locale context with
  | None => Ok key
  | Some message =>
      formatter ← formatter_for self locale;
      format formatter (value message) kwargs
  end.

(** [Translator.tn] *)
Definition tn `{PyRuntime} (self : Translator) (key : string) (count : number)
    (locale : option string) (context : string) (kwargs : gmap string pyvalue)
  : result string :=
  let locale := str_or locale (current_locale self) in
  match locales self !! locale with
  | None => Ok key
  | Some locale_obj =>
      match _find_message self key locale context with
      | None => Ok key
      | Some message =>
          let rule := get_rule (language locale_obj) count in
          let template :=
            default (value message) (plural_forms message !! rule_value rule) in
          let kwargs := <["count" := VNum count]> kwargs in
          formatter ← formatter_for self locale;
          format formatter template kwargs
      end
  end.

(** Sequences of operations on a translator. *)
Inductive op :=
| AddLocale (locale : Locale)
| SetLocale (code : string)
| SetFallbackChain (locale : string) (fallbacks : list string)
| LoadMessages (locale : string) (msgs : list (string * string)).

Definition step (self : Translator) (o : op) : Translator :=
  match o with
  | AddLocale l => add_locale self l
  | SetLocale c => (set_locale self c).1
  | SetFallbackChain l fs => set_fallback_chain self l fs
  | LoadMessages l ms => load_messages self l ms
  end.

Definition run (ops : list op) (self : Translator) : Translator :=
  fold_left step ops self.



(** ** Substitution as a single pass over segments *)

(** A template is cut into the bytes of its literal text and its
    placeholder matches. *)
Inductive segment :=
| Lit (c : ascii)
| Hole (m : rmatch).

Definition seg_text (g : segment) : string :=
  match g with
  | Lit c => String c ""
  | Hole m => whole m
  end.

Fixpoint text_of (segs : list segment) : string :=
  match segs with
  | [] => ""
  | g :: rest => seg_text g +:+ text_of rest
  end.

Fixpoint segments_from (r : regex) (skip : nat) (s : string) : list segment :=
  match s with
  | "" => []
  | String c s' =>
      match skip with
      | S n => segments_from r n s'
      | O =>
          match re_match_at r s with
          | Some m => Hole m :: segments_from r (String.length (whole m) - 1) s'
          | None => Lit c :: segments_from r 0 s'
          end
      end
  end.

(** The placeholders and literal characters of a template, in order. *)
Definition segments `{PyRuntime} (template : string) : list segment :=
  segments_from PLACEHOLDER_PATTERN 0 template.

(** The output built from the segments: literal characters are copied and
    each match is replaced by what [repl] returns for it. *)
Fixpoint render (repl : rmatch -> result string) (segs : list segment)
  : result string :=
  match segs with
  | [] => Ok ""
  | Lit c :: rest => b ← render repl rest; Ok (String c b)
  | Hole m :: rest => a ← repl m; b ← render repl rest; Ok (a +:+ b)
  end.

(** [s[n:]] *)
Fixpoint sdrop (n : nat) (s : string) : string :=
  match n, s with
  | O, _ => s
  | S n', String _ s' => sdrop n' s'
  | S _, "" => ""
  end.

(** ** Notions used in the statements *)

(** A placeholder name written in ASCII: one or more letters, digits and
    underscores. *)
Definition is_name (s : string) : bool := truthy s && all_chars is_word s.

(** The format specs [_apply_format] hands to a formatter. *)
Definition recognized_spec (spec : string) : bool :=
  str_in spec ["number"; "currency"; "date"; "time"; "datetime"]
  || String.prefix "decimal:" spec.

(** The value a match is bound to, if any. *)
Definition bound_value (kwargs : gmap string pyvalue) (m : rmatch) : option pyvalue :=
  group m 1 ≫= (fun n => kwargs !! n).

(** A segment that sends a bound value to a formatter. *)
Definition uses_formatter (kwargs : gmap string pyvalue) (g : segment) : bool :=
  match g with
  | Lit _ => false
  | Hole m =>
      match bound_value kwargs m, group m 2 with
      | Some _, Some spec => recognized_spec spec
      | _, _ => false
      end
  end.

(** The value a segment puts into the output, with the spec it carries:
    its placeholder is bound. *)
Definition substitution (kwargs : gmap string pyvalue) (g : segment)
  : option (pyvalue * option string) :=
  match g with
  | Lit _ => None
  | Hole m =>
      match bound_value kwargs m with
      | Some v =>
          Some (v, match group m 2 with
                   | Some spec => if truthy spec then Some spec else None
                   | None => None
                   end)
      | None => None
      end
  end.

(** Values [str] writes: every value but an int of too many digits. *)
Definition printable (v : pyvalue) : bool :=
  match v with
  | VNum (NInt z) => int_digits_ok z
  | _ => true
  end.

(** An int that can be written, or a float. *)
Definition is_number (v : pyvalue) : bool :=
  match v with
  | VNum _ => printable v
  | _ => false
  end.

(** Values that fit a spec: a value [str] writes, for a spec that names no
    formatter; an int or a float for [number]; an int or a float for
    [currency] when the layout of the locale is the default one; for
    [decimal:N] with [N] an integer literal, an int, or a float when [N] is
    a precision.  The specs [date], [time] and [datetime] are left to
    [strftime]. *)
Definition accepted (self : MessageFormatter) (v : pyvalue) (spec : string) : bool :=
  if String.eqb spec "number" then is_number v
  else if String.eqb spec "currency" then
    is_number v && String.eqb (currency_format (fmt_locale self)) "{symbol}{amount}"
  else if str_in spec ["date"; "time"; "datetime"] then false
  else if String.prefix "decimal:" spec then
    match second_field spec ≫= py_int with
    | Ok places =>
        match v with
        | VNum (NInt z) => int_digits_ok z
        | VNum (NFloat _) => (0 <=? places)%Z && (places <=? max_precision)%Z
        | _ => false
        end
    | _ => false
    end
  else printable v.

(** A value that fits the place it is put in: the spec of the placeholder,
    or [str] where there is none. *)
Definition fits (self : MessageFormatter) (v : pyvalue) (spec : option string) : bool :=
  match spec with
  | Some spec => accepted self v spec
  | None => printable v
  end.

(** What [format] puts in the place of such a value. *)
Definition substitute `{PyRuntime} (self : MessageFormatter) (v : pyvalue)
    (spec : option string) : result string :=
  match spec with
  | Some spec => _apply_format self v spec
  | None => py_str v
  end.

(** What stands in the output for a segment: the byte of a literal, the
    text of an unbound placeholder as written, the replacement of a bound
    one. *)
Definition piece_of `{PyRuntime} (self : MessageFormatter)
    (kwargs : gmap string pyvalue) (g : segment) (piece : string) : Prop :=
  match g with
  | Lit c => piece = String c ""
  | Hole m =>
      match bound_value kwargs m with
      | None => piece = whole m
      | Some _ => format_replace self kwargs m = Ok piece
      end
  end.

(** ["".join(pieces)] *)
Fixpoint join (pieces : list string) : string :=
  match pieces with
  | [] => ""
  | x :: rest => x +:+ join rest
  end.

(** Replacement by the default string representation: an unbound
    placeholder stays as it is. *)
Definition plain_replace `{PyRuntime} (kwargs : gmap string pyvalue) (m : rmatch)
  : result string :=
  match bound_value kwargs m with
  | Some v => py_str v
  | None => Ok (whole m)
  end.

(** The alphanumeric characters of Latin-1 outside ASCII. *)
Definition latin1_alnum (cp : N) : bool :=
  ((cp =? 170) || (cp =? 178) || (cp =? 179) || (cp =? 181) || (cp =? 185)
   || (cp =? 186) || ((188 <=? cp) && (cp <=? 190))
   || ((192 <=? cp) && (cp <=? 214)) || ((216 <=? cp) && (cp <=? 246))
   || ((248 <=? cp) && (cp <=? 255)))%N.

(** A runtime to evaluate examples with.  Its [float_repr] writes the exact
    decimal expansion of the float, which is Python's [repr] for floats such
    as 1.5 or 0.25 whose expansion is short; it has no [strftime]; and it
    knows the alphanumeric characters up to code point 255. *)
#[local] Instance example_runtime : PyRuntime := {|
  float_repr f :=
    match f with
    | FFin neg m e =>
        if (0 <=? e)%Z then render_fixed "" "." neg m e 1
        else render_fixed "" "." neg m e (Z.to_nat (- e))
    | FInf neg => if neg then "-inf" else "inf"
    | FNaN => "nan"
    end;
  strftime _ _ _ := Unmodelled;
  unicode_alnum := latin1_alnum
|}.

(** The locale [Translator.__init__] registers, and its formatter. *)
Definition en : Locale := mkLocale "en" "en" "English".
Definition en_formatter : MessageFormatter := {| fmt_locale := en |}.

(** A translator with default locale [en], locales [de] and [fr], the chain
    [de -> fr], and the key [hello] in the catalogs of [fr] and [en]. *)
Definition example_translator : Translator :=
  run [AddLocale (mkLocale "de" "de" "Deutsch");
       AddLocale (mkLocale "fr" "fr" "Francais");
       SetFallbackChain "de" ["fr"];
       LoadMessages "fr" [("hello", "Bonjour {name}")];
       LoadMessages "en" [("hello", "Hello {name}")]]
    (Translator_init "en").

(** The registry of a translator: every registered code has a locale, a
    catalog and a formatter, all three for the same locale. *)
Definition registry_consistent (self : Translator) : Prop :=
  dom (locales self) = dom (catalogs self)
  /\ dom (locales self) = dom (formatters self)
  /\ (forall code c, catalogs self !! code = Some c ->
        locales self !! code = Some (cat_locale c))
  /\ (forall code f, formatters self !! code = Some f ->
        locales self !! code = Some (fmt_locale f)).

(** An object with plural forms and no [value] field. *)
Definition items_object : entry_obj :=
  {| o_value := None; o_one := None;
     o_plural := Some {[ "one" := "{count} item"; "other" := "{count} items" ]};
     o_context := None; o_description := None |}.

(** A catalog with one entry with plural forms and one simple entry. *)
Definition example_catalog : MessageCatalog :=
  add (add (new_catalog en)
         {| key := "items"; value := "You have {count} item";
            plural_forms := {[ "one" := "You have {count} item";
                               "other" := "You have {count} items" ]};
            context := "cart"; description := "number of items" |})
      (simple_message "welcome" "Welcome, {name}!").

(** [old in s] *)
Fixpoint occurs (old s : string) : bool :=
  String.prefix old s
  || match s with
     | "" => false
     | String _ s' => occurs old s'
     end.

(** The token [format_number] puts in place of the grouping commas. *)
Definition THOUSANDS : string := "__THOUSANDS__".

(** The number formatting of the specification: the value in fixed-point
    notation with [decimals] fractional digits, grouped, with the separators
    of the locale. *)
Definition spec_format_number (l : Locale) (n : number) (decimals : nat)
  : option string :=
  match n with
  | NInt z =>
      Some (render_fixed (thousands_separator l) (decimal_separator l)
              (z <? 0)%Z (Z.abs_N z) 0 decimals)
  | NFloat (FFin neg m e) =>
      Some (render_fixed (thousands_separator l) (decimal_separator l)
              neg m e decimals)
  | NFloat _ => None
  end.

(** The locale [es] of the example: thousands separator [.], decimal
    separator [,], currency symbol the euro sign. *)
Definition es : Locale :=
  {| code := "es"; language := "es"; region := None; name := "Spanish";
     direction := "ltr"; date_format := "%Y-%m-%d"; time_format := "%H:%M:%S";
     datetime_format := "%Y-%m-%d %H:%M:%S"; decimal_separator := ",";
     thousands_separator := "."; currency_symbol := "€";
     currency_format := "{symbol}{amount}" |}.

(** A locale whose decimal separator is the internal token. *)
Definition token_locale : Locale :=
  {| code := "xx"; language := "xx"; region := None; name := "";
     direction := "ltr"; date_format := "%Y-%m-%d"; time_format := "%H:%M:%S";
     datetime_format := "%Y-%m-%d %H:%M:%S"; decimal_separator := "__THOUSANDS__";
     thousands_separator := " "; currency_symbol := "$";
     currency_format := "{symbol}{amount}" |}.

(** The doubles written [1234.5], [12.3] and [-12.3]. *)
Definition f_1234_5 : pyfloat := FFin false 2469 (-1).
Definition f_12_3 : pyfloat := FFin false 3462142213541069 (-48).
Definition f_neg_12_3 : pyfloat := FFin true 3462142213541069 (-48).

(** The double written [1234.56]. *)
Definition f_1234_56 : pyfloat := FFin false 2714826150374277 (-41).

(** ** More of the translator *)

(** [Translator.load_json] after [json.load], as [MessageCatalog.load_json]
    above. *)
Definition Translator_load_json (self : Translator) (locale : string)
    (data : list (string * entry)) : Translator * nat :=
  match catalogs self !! locale with
  | Some catalog =>
      let r := load_json catalog data in
      ({| default_locale := default_locale self;
          current_locale := current_locale self;
          locales := locales self;
          catalogs := <[locale := r.1]> (catalogs self);
          formatters := formatters self;
          _fallback_chain := _fallback_chain self |}, r.2)
  | None => (self, O)
  end.

(** The states of a translator constructed with the default locale [d]:
    what its methods, and [add] on one of its catalogs, can make of it. *)
Inductive reachable (d : string) : Translator -> Prop :=
| reach_init : reachable d (Translator_init d)
| reach_add_locale s l : reachable d s -> reachable d (add_locale s l)
| reach_set_locale s c : reachable d s -> reachable d (set_locale s c).1
| reach_set_fallback_chain s l fs :
    reachable d s -> reachable d (set_fallback_chain s l fs)
| reach_load_messages s l ms : reachable d s -> reachable d (load_messages s l ms)
| reach_load_json s l data :
    reachable d s -> reachable d (Translator_load_json s l data).1
| reach_catalog_add s l msg : reachable d s -> reachable d (load_plural s l msg).

(** ** LocaleManager *)

(** The keyword arguments [LocaleManager.add_locale] hands to [Locale]. *)
Record locale_kwargs := {
  kw_region : option string;
  kw_direction : option string;
  kw_date_format : option string;
  kw_time_format : option string;
  kw_datetime_format : option string;
  kw_decimal_separator : option string;
  kw_thousands_separator : option string;
  kw_currency_symbol : option string;
  kw_currency_format : option string
}.

Definition no_kwargs : locale_kwargs :=
  {| kw_region := None; kw_direction := None; kw_date_format := None;
     kw_time_format := None; kw_datetime_format := None;
     kw_decimal_separator := None; kw_thousands_separator := None;
     kw_currency_symbol := None; kw_currency_format := None |}.

Record LocaleManager := {
  translator : Translator;
  locales_dir : option string
}.

Module Manager.

(** [LocaleManager.__init__] *)
Definition init (locales_dir : option string) : LocaleManager :=
  {| translator := Translator_init "en"; locales_dir := locales_dir |}.

(** [Locale(code=code, language=language, name=name or code, **kwargs)] *)
Definition make_locale (code language name : string) (kw : locale_kwargs) : Locale :=
  {| code := code; language := language; region := kw_region kw;
     name := str_or (Some name) code;
     direction := default "ltr" (kw_direction kw);
     date_format := default "%Y-%m-%d" (kw_date_format kw);
     time_format := default "%H:%M:%S" (kw_time_format kw);
     datetime_format := default "%Y-%m-%d %H:%M:%S" (kw_datetime_format kw);
     decimal_separator := default "." (kw_decimal_separator kw);
     thousands_separator := default "," (kw_thousands_separator kw);
     currency_symbol := default "$" (kw_currency_symbol kw);
     currency_format := default "{symbol}{amount}" (kw_currency_format kw) |}.

(** [LocaleManager.add_locale] *)
Definition add_locale (self : LocaleManager) (code language name : string)
    (kw : locale_kwargs) : LocaleManager :=
  {| translator := add_locale (translator self) (make_locale code language name kw);
     locales_dir := locales_dir self |}.

(** [LocaleManager.set_locale] *)
Definition set_locale (self : LocaleManager) (code : string) : LocaleManager * bool :=
  let r := set_locale (translator self) code in
  ({| translator := r.1; locales_dir := locales_dir self |}, r.2).

(** [LocaleManager.get_locale] *)
Definition get_locale (self : LocaleManager) : string :=
  current_locale (translator self).

(** [LocaleManager.format_number] *)
Definition format_number `{PyRuntime} (self : LocaleManager) (value : pyvalue)
    (decimals : Z) : result string :=
  match formatters (translator self) !! current_locale (translator self) with
  | Some formatter => format_number formatter value decimals
  | None => py_str value
  end.

(** [LocaleManager.format_currency] *)
Definition format_currency `{PyRuntime} (self : LocaleManager) (value : pyvalue)
    (symbol : option string) : result string :=
  match formatters (translator self) !! current_locale (translator self) with
  | Some formatter => format_currency formatter value symbol
  | None => py_str value
  end.

(** [LocaleManager.format_date] *)
Definition format_date `{PyRuntime} (self : LocaleManager) (value : pyvalue)
  : result string :=
  match formatters (translator self) !! current_locale (translator self) with
  | Some formatter => format_date formatter value
  | None => py_str value
  end.

End Manager.

(** The states of a manager: its translator is constructed with the default
    locale [en], and is open to every operation of a translator. *)
Definition manager_state (self : LocaleManager) : Prop :=
  reachable "en" (translator self).

(** The manager of the example in the source: [es] with the euro sign, a
    decimal comma and a point for thousands, made the current locale. *)
Definition example_manager : LocaleManager :=
  (Manager.set_locale
     (Manager.add_locale (Manager.init None) "es" "es" "Spanish"
        {| kw_region := None; kw_direction := None; kw_date_format := None;
           kw_time_format := None; kw_datetime_format := None;
           kw_decimal_separator := Some ","; kw_thousands_separator := Some ".";
           kw_currency_symbol := Some "€"; kw_currency_format := None |})
     "es").1.


(** * Properties *)

(** ** Evaluation of the definitions on small inputs *)
Example group_ex : group_with "," "1234567" = "1,234,567" /\ group_with "," "123" = "123".
Proof. repeat split; reflexivity. Qed.
Example split_ex : split_char ":" "decimal:2:x" = ["decimal"; "2"; "x"].
Proof. reflexivity. Qed.

Example digits_ex : digits 0 = "0" /\ digits 1234 = "1234" /\ digits 1000 = "1000".
Proof. repeat split; reflexivity. Qed.

Example replace_ex : replace "aa" "b" "aaaa_aaa" = "bb_ba".
Proof. reflexivity. Qed.

Example py_int_ex : py_int " +1_0 " = Ok 10 /\ py_int "abc" = Raise ValueError
   /\ py_int "" = Raise ValueError /\ py_int "-3" = Ok (-3) /\ py_int "1__0" = Raise ValueError
   /\ py_int "٢" = Unmodelled.
Proof. repeat split; reflexivity. Qed.

Example format_float_ex :
  format_float_f (FFin false 2469 (-1)) 1 = Ok "1,234.5"
  /\ format_float_f (FFin false 2469 (-1)) 0 = Ok "1,234"
  /\ format_float_f (FFin false 2471 (-1)) 0 = Ok "1,236"
  /\ format_float_f (FFin true 1 (-10)) 2 = Ok "-0.00"
  /\ format_float_f (FFin false 3462142213541069 (-48)) 2 = Ok "12.30"
  /\ format_float_f (FFin false 5 (-1)) 0 = Ok "2"
  /\ format_float_f (FFin false 3 (-1)) 0 = Ok "2"
  /\ format_float_f (FFin false 1 (-1)) 0 = Ok "0"
  /\ format_float_f (FFin false 1 (-3)) 2 = Ok "0.12"
  /\ format_float_f (FFin true 0 0) 1 = Ok "-0.0"
  /\ format_float_f (FFin false 1 0) (-1) = Raise ValueError
  /\ format_float_f (FFin false 1 0) 2147483648 = Raise ValueError
  /\ format_float_f (FInf false) 2147483648 = Raise ValueError
  /\ format_int_grouped (-1234567) = Ok "-1,234,567".
Proof. repeat split; reflexivity. Qed.

Example str_format_ex :
  let kw : gmap string string := {[ "symbol" := "$"; "amount" := "1.00" ]} in
  str_format "{symbol}{amount}" kw = Ok "$1.00"
  /\ str_format "{amount} {symbol} {{}}" kw = Ok "1.00 $ {}"
  /\ str_format "{sym}" kw = Raise KeyError
  /\ str_format "{}" kw = Raise IndexError
  /\ str_format "{symbol" kw = Raise ValueError
  /\ str_format "}" kw = Raise ValueError
  /\ str_format "{amount:>8}" kw = Unmodelled
  /\ str_format "{٢}" kw = Unmodelled
  /\ str_format "{007}" kw = Raise IndexError
  /\ str_format "{99999999999999999999}" kw = Unmodelled.
Proof. repeat split; vm_compute; reflexivity. Qed.

Example placeholder_ex :
  (whole <$> re_match_at PLACEHOLDER_PATTERN "{name} x") = Some "{name}"
  /\ (re_match_at PLACEHOLDER_PATTERN "{n:decimal:2}}" ≫= (fun m => group m 2))
     = Some "decimal:2"
  /\ (re_match_at PLACEHOLDER_PATTERN "{n:}" = None)
  /\ (re_match_at PLACEHOLDER_PATTERN "{n:a" = None)
  /\ (re_match_at PLACEHOLDER_PATTERN "{a b}" = None)
  /\ (re_match_at PLACEHOLDER_PATTERN "{}" = None)
  /\ (re_match_at PLACEHOLDER_PATTERN "{é}" ≫= (fun m => group m 1)) = Some "é"
  /\ (re_match_at PLACEHOLDER_PATTERN "{naïve_1:x}" ≫= (fun m => group m 1))
     = Some "naïve_1"
  /\ (re_match_at PLACEHOLDER_PATTERN "{€}" = None)
  /\ (re_match_at PLACEHOLDER_PATTERN "{a·b}" = None)
  /\ format en_formatter "{é}" {[ "é" := VStr "X" ]} = Ok "X"
  /\ format en_formatter "{é:number}" {[ "é" := VStr "abc" ]} = Raise ValueError
  /\ format en_formatter "x" {[ "template" := VStr "y" ]} = Raise TypeError.
Proof. repeat split; vm_compute; reflexivity. Qed.

Example get_rule_float_ex :
  get_rule "en" (NFloat (FFin false 1 0)) = ONE
  /\ get_rule "en" (NFloat (FFin false 3 (-1))) = OTHER
  /\ get_rule "fr" (NFloat (FFin true 3 (-1))) = ONE
  /\ get_rule "ru" (NFloat (FFin false 43 (-1))) = MANY
  /\ get_rule "ru" (NFloat (FFin false 21 0)) = ONE
  /\ get_rule "ru" (NFloat FNaN) = MANY
  /\ get_rule "ar" (NFloat (FInf true)) = OTHER
  /\ get_rule "ar" (NInt (-103)) = FEW
  /\ get_rule "ar" (NInt 100) = OTHER
  /\ get_rule "EN" (NInt 1) = ONE
  /\ get_rule "en-US" (NInt 0) = OTHER.
Proof. repeat split; reflexivity. Qed.

(** The scenario of the specification: [items] with plural forms in [en]. *)
Example tn_items_ex :
  let self := load_plural (Translator_init "en") "en"
                {| key := "items"; value := "You have {count} item";
                   plural_forms := {[ "one" := "You have {count} item";
                                      "other" := "You have {count} items" ]};
                   context := ""; description := "" |} in
  tn self "items" (NInt 1) None "" ∅ = Ok "You have 1 item"
  /\ tn self "items" (NInt 5) None "" ∅ = Ok "You have 5 items"
  /\ tn self "items" (NInt 5) (Some "de") "" ∅ = Ok "items"
  /\ t self "missing" None "" ∅ = Ok "missing".
Proof. repeat split; vm_compute; reflexivity. Qed.

(** ** Plural rules *)

Lemma str_in_single s x : str_in s [x] = String.eqb s x.
Proof. unfold str_in; simpl. apply orb_false_r. Qed.

Lemma get_rule_table language n :
  get_rule language n = categorize_spec language (py_abs n).
Proof.
  unfold get_rule, categorize_spec, family_of.
  rewrite !str_in_single.
  destruct (str_in language ["en"; "de"; "es"; "it"; "pt"; "nl"]); [reflexivity|].
  destruct (String.eqb language "fr"); [reflexivity|].
  destruct (str_in language ["ru"; "pl"; "uk"]); [reflexivity|].
  destruct (String.eqb language "ar"); reflexivity.
Qed.

(** On an integer count the tests of the table are the arithmetic ones. *)
Lemma mag_eqb_int n k : mag_eqb (MInt n) k = (n =? k)%N.
Proof.
  unfold mag_eqb, mag_cmp. rewrite N.eqb_compare. destruct (n ?= k)%N; reflexivity.
Qed.

Lemma mag_ltb_int n k : mag_ltb (MInt n) k = (n <? k)%N.
Proof.
  unfold mag_ltb, mag_cmp, N.ltb. destruct (n ?= k)%N; reflexivity.
Qed.

Lemma mag_between_int lo n hi :
  mag_between lo (MInt n) hi = ((lo <=? n) && (n <=? hi))%N.
Proof.
  unfold mag_between, mag_geb, mag_leb, mag_cmp, N.leb.
  rewrite (N.compare_antisym n lo). destruct (n ?= lo)%N, (n ?= hi)%N; reflexivity.
Qed.

Lemma in_range_3 n a b c :
  (b = a + 1 -> c = a + 2 ->
   (n =? a) || ((n =? b) || ((n =? c) || false)) = (a <=? n) && (n <=? c))%N.
Proof.
  intros -> ->.
  destruct (N.eqb_spec n a), (N.eqb_spec n (a + 1)), (N.eqb_spec n (a + 2)),
    (N.leb_spec a n), (N.leb_spec n (a + 2)); simpl; try reflexivity; lia.
Qed.

(** On an int the table is the one written with [=], [<] and [mod]. *)
Lemma get_rule_int language z :
  get_rule language (NInt z) = categorize_int language (Z.abs_N z).
Proof.
  rewrite get_rule_table. unfold categorize_spec, categorize_int. cbn [py_abs].
  destruct (family_of language); cbn [mag_mod]; unfold mag_in; cbn [existsb];
    rewrite ?mag_eqb_int, ?mag_ltb_int, ?mag_between_int; try reflexivity.
  rewrite (in_range_3 _ 2 3 4), (in_range_3 _ 12 13 14) by reflexivity.
  reflexivity.
Qed.

(** C1: [get_rule] is a total function of the language and of the absolute
    value of the count, and it is the decision table of the specification:
    one iff the count is 1 for en, de, es, it, pt, nl and every unlisted
    language; one iff the count is below 2 for fr; one, few or many by the
    last digits for ru, pl, uk (never zero, two or other); the six-way rule
    for ar.  The values the specification lists are the ones computed. *)
Theorem get_rule_decision_table :
  (forall language n, get_rule language n = categorize_spec language (py_abs n))
  /\ (forall language z,
        get_rule language (NInt z) = categorize_int language (Z.abs_N z))
  /\ (forall language z, get_rule language (NInt (- z)) = get_rule language (NInt z))
  /\ (forall n, Forall (fun language => In (get_rule language n) [ONE; FEW; MANY])
                  ["ru"; "pl"; "uk"])
  /\ (forall language n,
        family_of language = Unlisted \/ family_of language = EnglishLike ->
        get_rule language n = if mag_eqb (py_abs n) 1 then ONE else OTHER)
  /\ get_rule "ru" (NInt 21) = ONE
  /\ get_rule "ru" (NInt 22) = FEW
  /\ get_rule "ru" (NInt 11) = MANY
  /\ get_rule "ar" (NInt 0) = ZERO
  /\ get_rule "ar" (NInt 2) = TWO
  /\ get_rule "fr" (NInt 0) = ONE
  /\ get_rule "fr" (NInt 2) = OTHER.
Proof.
  split; [exact get_rule_table|].
  split; [exact get_rule_int|].
  split.
  { intros language z. rewrite !get_rule_table. cbn [py_abs].
    rewrite Zabs2N.inj_opp. reflexivity. }
  split.
  { intros n.
    repeat (apply List.Forall_cons;
      [ rewrite get_rule_table; unfold categorize_spec;
        cbn [family_of str_in existsb String.eqb Ascii.eqb Bool.eqb orb andb];
        repeat match goal with |- context [if ?b then _ else _] => destruct b end;
        simpl; tauto | ]).
    apply List.Forall_nil. }
  split.
  { intros language n H. rewrite get_rule_table. unfold categorize_spec.
    destruct H as [-> | ->]; reflexivity. }
  repeat split; reflexivity.
Qed.

Lemma get_rule_decision_table_witness :
  family_of "ja" = Unlisted
  /\ get_rule "ja" (NInt 1) = ONE
  /\ get_rule "ja" (NFloat (FFin true 5 (-1))) = OTHER.
Proof.
  destruct get_rule_decision_table as (_ & _ & _ & _ & Hw & _).
  split; [reflexivity|].
  split; rewrite Hw; solve [reflexivity | left; reflexivity].
Defined.

(** ** Strings: basic facts *)

Lemma sapp_nil_l s : "" +:+ s = s.
Proof. reflexivity. Qed.

Lemma sapp_cons c a b : String c a +:+ b = String c (a +:+ b).
Proof. reflexivity. Qed.

Lemma sapp_nil_r s : s +:+ "" = s.
Proof. induction s as [|c s IH]; [reflexivity|]. rewrite sapp_cons, IH. reflexivity. Qed.

Lemma sapp_assoc a b c : (a +:+ b) +:+ c = a +:+ (b +:+ c).
Proof.
  induction a as [|x a IH]; [reflexivity|]. rewrite !sapp_cons, IH. reflexivity.
Qed.

(** Appends are brought to right-nested form with the characters in front. *)
Ltac sapp_norm :=
  repeat (rewrite sapp_cons || rewrite sapp_nil_l || rewrite sapp_assoc
          || rewrite sapp_nil_r).

Lemma slength_app a b :
  String.length (a +:+ b) = (String.length a + String.length b)%nat.
Proof.
  induction a as [|x a IH]; [reflexivity|]. rewrite sapp_cons. simpl. rewrite IH.
  reflexivity.
Qed.

Lemma substring_app_l a b : String.substring 0 (String.length a) (a +:+ b) = a.
Proof.
  induction a as [|x a IH].
  - destruct b; reflexivity.
  - rewrite sapp_cons. simpl. rewrite IH. reflexivity.
Qed.

Lemma consumed_app pre rest : consumed (pre +:+ rest) rest = pre.
Proof.
  unfold consumed. rewrite slength_app.
  replace (String.length pre + String.length rest - String.length rest)%nat
    with (String.length pre) by lia.
  apply substring_app_l.
Qed.

(** ** The matcher *)

Lemma plus_go_inv {A} cls (k : string -> option A) a : forall s skip,
  plus_go cls skip s k = Some a ->
  exists pre rest, s = pre +:+ rest /\ k rest = Some a.
Proof.
  induction s as [|c s IH]; intros skip; cbn [plus_go].
  - destruct skip; [|discriminate]. intros Hk. exists "", "". split; [reflexivity|exact Hk].
  - destruct skip as [|n].
    + destruct (cls (String c s)) as [|n].
      * intros Hk. exists "", (String c s). split; [reflexivity|exact Hk].
      * destruct (plus_go cls n s k) as [a'|] eqn:E.
        -- intros [= <-]. destruct (IH n E) as (pre & rest & -> & Hk).
           exists (String c pre), rest. split; [reflexivity|exact Hk].
        -- intros Hk. exists "", (String c s). split; [reflexivity|exact Hk].
    + intros H. destruct (IH n H) as (pre & rest & -> & Hk).
      exists (String c pre), rest. split; [reflexivity|exact Hk].
Qed.

Lemma plus_match_inv {A} cls s (k : string -> option A) a :
  plus_match cls s k = Some a ->
  exists c pre rest, s = String c pre +:+ rest /\ k rest = Some a.
Proof.
  unfold plus_match. destruct (cls s) as [|n]; [discriminate|].
  destruct s as [|c s]; [discriminate|]. intros H.
  apply plus_go_inv in H as (pre & rest & -> & Hk).
  exists c, pre, rest. split; [reflexivity|exact Hk].
Qed.

(** A successful match calls its continuation on a suffix of the text. *)
Lemma re_match_inv {A} r : forall s caps (k : string -> gmap nat string -> option A) a,
  re_match r s caps k = Some a ->
  exists pre rest caps', s = pre +:+ rest /\ k rest caps' = Some a.
Proof.
  induction r as [c|cls|r1 IH1 r2 IH2|r1 IH1|i r1 IH1]; intros s caps k a; simpl.
  - destruct s as [|c' s']; [discriminate|].
    destruct (Ascii.eqb c c'); [|discriminate].
    intros Hk. exists (String c' ""), s', caps. split; [reflexivity|exact Hk].
  - intros H. apply plus_match_inv in H as (c & pre & rest & -> & Hk).
    exists (String c pre), rest, caps. split; [reflexivity|exact Hk].
  - intros H. apply IH1 in H as (pre1 & rest1 & caps1 & -> & H).
    apply IH2 in H as (pre2 & rest2 & caps2 & -> & H).
    exists (pre1 +:+ pre2), rest2, caps2. split; [|exact H].
    symmetry; apply sapp_assoc.
  - destruct (re_match r1 s caps k) as [a'|] eqn:E.
    + intros [= <-]. apply IH1 in E. exact E.
    + intros Hk. exists "", s, caps. split; [reflexivity|exact Hk].
  - intros H. apply IH1 in H as (pre & rest & caps' & -> & H).
    eexists pre, rest, _. split; [reflexivity|exact H].
Qed.

Lemma re_match_seq_char {A} c r s caps (k : string -> gmap nat string -> option A) :
  re_match (RSeq (RChar c) r) s caps k =
  match s with
  | String c' s' => if Ascii.eqb c c' then re_match r s' caps k else None
  | "" => None
  end.
Proof. destruct s; reflexivity. Qed.

(** A placeholder match is a non-empty prefix of the text. *)
Lemma placeholder_match_prefix `{PyRuntime} s m :
  re_match_at PLACEHOLDER_PATTERN s = Some m ->
  exists pre, whole m = String "{" pre /\ s = whole m +:+ after m.
Proof.
  unfold re_match_at, PLACEHOLDER_PATTERN.
  rewrite re_match_seq_char. destruct s as [|c s']; [discriminate|].
  destruct (Ascii.eqb_spec "{"%char c) as [<-|]; [|discriminate].
  intros Hm. apply re_match_inv in Hm as (pre & rest & caps' & -> & Hm).
  injection Hm as <-. cbn [whole after].
  change (String "{" (pre +:+ rest)) with (String "{" pre +:+ rest).
  rewrite consumed_app. exists pre. split; reflexivity.
Qed.

(** ** Substitution as a single pass over segments *)

Lemma re_sub_from_render r repl : forall s skip,
  re_sub_from r repl skip s = render repl (segments_from r skip s).
Proof.
  induction s as [|c s IH]; intros skip; simpl; [reflexivity|].
  destruct skip as [|n]; [|apply IH].
  destruct (re_match_at r (String c s)) as [m|]; simpl; rewrite IH; reflexivity.
Qed.

Lemma sdrop_app a b : sdrop (String.length a) (a +:+ b) = b.
Proof. induction a as [|x a IH]; [reflexivity|]. rewrite sapp_cons. simpl. exact IH. Qed.

Lemma segments_from_text `{PyRuntime} : forall s skip,
  text_of (segments_from PLACEHOLDER_PATTERN skip s) = sdrop skip s.
Proof.
  induction s as [|c s IH]; intros skip; simpl.
  - destruct skip; reflexivity.
  - destruct skip as [|n]; [|apply IH].
    destruct (re_match_at PLACEHOLDER_PATTERN (String c s)) as [m|] eqn:E.
    + apply placeholder_match_prefix in E as (pre & Hw & Hs).
      cbn [text_of seg_text]. rewrite IH. rewrite Hw in Hs |- *.
      rewrite sapp_cons in Hs. injection Hs as -> ->.
      simpl String.length.
      replace (S (String.length pre) - 1)%nat with (String.length pre) by lia.
      rewrite sdrop_app. reflexivity.
    + cbn [text_of seg_text]. rewrite IH. reflexivity.
Qed.

Lemma segments_text `{PyRuntime} template : text_of (segments template) = template.
Proof. apply segments_from_text. Qed.

(** ** Keyword arguments *)

Lemma keyword_clash_free names kwargs :
  free_of names kwargs -> keyword_clash names kwargs = false.
Proof.
  unfold free_of, keyword_clash. induction 1 as [|n names Hn _ IH]; [reflexivity|].
  cbn [existsb]. rewrite Hn, IH. reflexivity.
Qed.

Lemma keyword_clash_false names kwargs :
  keyword_clash names kwargs = false -> free_of names kwargs.
Proof.
  unfold free_of, keyword_clash. induction names as [|n names IH]; [constructor|].
  cbn [existsb]. intros [Hn Hr]%orb_false_iff. constructor; [|apply IH, Hr].
  destruct (kwargs !! n); [discriminate|reflexivity].
Qed.

Lemma free_of_empty names : free_of names ∅.
Proof. apply Forall_forall. intros n _. apply lookup_empty. Qed.

Lemma format_render `{PyRuntime} self template kwargs :
  free_of format_params kwargs ->
  format self template kwargs = render (format_replace self kwargs) (segments template).
Proof.
  intros Hf. unfold format. rewrite (keyword_clash_free _ _ Hf).
  apply re_sub_from_render.
Qed.

(** When every match is replaced by its own text the output is the input. *)
Lemma render_unchanged repl segs :
  Forall (fun g => match g with Hole m => repl m = Ok (whole m) | Lit _ => True end)
    segs ->
  render repl segs = Ok (text_of segs).
Proof.
  induction 1 as [|g segs Hg _ IH]; [reflexivity|].
  destruct g as [c|m]; simpl; [|rewrite Hg; simpl]; rewrite IH; reflexivity.
Qed.

(** ** Placeholders *)

(** A run of one-byte characters of the class, followed by a text that
    does not start with a character of the class, is taken whole. *)
Lemma plus_go_run {A} cls (p : ascii -> bool) (k : string -> option A) a tail :
  (forall c r, p c = true -> cls (String c r) = 1%nat) ->
  cls tail = O ->
  k tail = Some a ->
  forall name, all_chars p name = true -> plus_go cls 0 (name +:+ tail) k = Some a.
Proof.
  intros Hp Htail Hk name.
  induction name as [|c name IH]; intros Hall.
  - rewrite sapp_nil_l. destruct tail as [|c r]; [exact Hk|].
    cbn [plus_go]. rewrite Htail. exact Hk.
  - simpl in Hall. apply andb_true_iff in Hall as [Hc Hall].
    rewrite sapp_cons. cbn [plus_go]. rewrite (Hp c _ Hc), (IH Hall). reflexivity.
Qed.

Lemma plus_match_run {A} cls (p : ascii -> bool) (k : string -> option A) a name tail :
  (forall c r, p c = true -> cls (String c r) = 1%nat) ->
  name <> "" ->
  all_chars p name = true ->
  cls tail = O ->
  k tail = Some a ->
  plus_match cls (name +:+ tail) k = Some a.
Proof.
  intros Hp Hne Hall Htail Hk.
  destruct name as [|c name]; [congruence|].
  simpl in Hall. apply andb_true_iff in Hall as [Hc Hall].
  rewrite sapp_cons. unfold plus_match. rewrite (Hp c _ Hc).
  apply (plus_go_run cls p k a tail Hp Htail Hk name Hall).
Qed.

(** An ASCII word character is a character of [\w], in one byte. *)
Lemma word_len_ascii `{PyRuntime} c r : is_word c = true -> word_len (String c r) = 1%nat.
Proof.
  destruct c as [[] [] [] [] [] [] [] []]; try discriminate; reflexivity.
Qed.

Lemma not_brace_len_other c r :
  negb (Ascii.eqb c "}") = true -> not_brace_len (String c r) = 1%nat.
Proof. unfold not_brace_len. intros ->%negb_true_iff. reflexivity. Qed.

(** [{name}] at the start of a text is matched, with [name] as group 1 and
    no group 2. *)
Lemma placeholder_match_name `{PyRuntime} name rest :
  is_name name = true ->
  re_match_at PLACEHOLDER_PATTERN ("{" +:+ name +:+ "}" +:+ rest)
  = Some {| whole := "{" +:+ name +:+ "}"; groups := {[ 1%nat := name ]};
            after := rest |}.
Proof.
  unfold is_name, truthy. intros [Hne Hall]%andb_true_iff.
  apply negb_true_iff, String.eqb_neq in Hne.
  unfold re_match_at, PLACEHOLDER_PATTERN.
  rewrite re_match_seq_char. rewrite sapp_cons, sapp_nil_l.
  rewrite Ascii.eqb_refl. cbn [re_match].
  erewrite (plus_match_run word_len is_word);
    [reflexivity|apply word_len_ascii|exact Hne|exact Hall| |].
  - rewrite sapp_cons. reflexivity.
  - rewrite sapp_cons, sapp_nil_l. cbn -[consumed String.append].
    rewrite consumed_app.
    replace (String "{" (name +:+ String "}" rest))
      with (("{" +:+ name +:+ "}") +:+ rest).
    + rewrite consumed_app. reflexivity.
    + sapp_norm. reflexivity.
Qed.

Lemma format_replace_unbound `{PyRuntime} self kwargs m :
  bound_value kwargs m = None -> format_replace self kwargs m = Ok (whole m).
Proof. unfold format_replace, bound_value. intros ->. reflexivity. Qed.

Lemma format_unbound `{PyRuntime} self template kwargs :
  free_of format_params kwargs ->
  Forall (fun g => match g with
                   | Hole m => bound_value kwargs m = None
                   | Lit _ => True
                   end) (segments template) ->
  format self template kwargs = Ok template.
Proof.
  intros Hf Hall. rewrite format_render by exact Hf.
  rewrite <- (segments_text template) at 2.
  apply render_unchanged.
  eapply Forall_impl; [exact Hall|].
  intros [c|m]; [trivial|]. apply format_replace_unbound.
Qed.

Lemma format_empty `{PyRuntime} self template : format self template ∅ = Ok template.
Proof.
  apply format_unbound; [apply free_of_empty|].
  apply Forall_forall. intros [c|m] _; [trivial|].
  unfold bound_value. destruct (group m 1); [apply lookup_empty|reflexivity].
Qed.

(** What a placeholder match is: an opening brace, a name, possibly a colon
    and a non-empty spec, and a closing brace. *)
Lemma placeholder_match_inv `{PyRuntime} s m :
  re_match_at PLACEHOLDER_PATTERN s = Some m ->
  exists name,
    name <> "" /\ group m 1 = Some name /\ s = whole m +:+ after m
    /\ ((group m 2 = None /\ whole m = "{" +:+ name +:+ "}")
        \/ (exists spec,
              group m 2 = Some spec /\ truthy spec = true
              /\ whole m = "{" +:+ name +:+ ":" +:+ spec +:+ "}")).
Proof.
  intros Hm. pose proof (placeholder_match_prefix s m Hm) as (pre & Hw & Hs).
  revert Hm. unfold re_match_at, PLACEHOLDER_PATTERN.
  rewrite re_match_seq_char. destruct s as [|c s1]; [discriminate|].
  destruct (Ascii.eqb_spec "{"%char c) as [<-|]; [|discriminate].
  cbn [re_match]. intros Hm.
  apply plus_match_inv in Hm as (n0 & n1 & rest1 & -> & Hm).
  rewrite consumed_app in Hm.
  exists (String n0 n1). split; [discriminate|].
  destruct rest1 as [|c1 r1]; [discriminate|].
  destruct (Ascii.eqb_spec ":"%char c1) as [<-|Hc1].
  - (* a colon: the spec must match, a closing brace cannot follow the name *)
    destruct (plus_match _ r1 _) as [m'|] eqn:Hspec; [|discriminate].
    injection Hm as ->.
    apply plus_match_inv in Hspec as (s0 & s1 & r2 & -> & Hk).
    destruct r2 as [|c2 r3]; [discriminate|].
    destruct (Ascii.eqb_spec "}"%char c2) as [<-|]; [|discriminate].
    injection Hk as <-. rewrite consumed_app. cbn [group groups whole after] in *.
    rewrite lookup_insert_ne by discriminate. rewrite lookup_insert_eq.
    repeat split; [exact Hs|]. right. exists (String s0 s1).
    rewrite lookup_insert_eq. repeat split.
    replace (String "{" (String n0 n1 +:+ String ":" (String s0 s1 +:+ String "}" r3)))
      with (("{" +:+ String n0 n1 +:+ ":" +:+ String s0 s1 +:+ "}") +:+ r3)
      by (sapp_norm; reflexivity).
    apply consumed_app.
  - destruct (Ascii.eqb_spec "}"%char c1) as [<-|]; [|discriminate].
    injection Hm as <-. cbn [group groups whole after] in *.
    rewrite lookup_insert_eq. repeat split; [exact Hs|]. left.
    rewrite lookup_insert_ne by discriminate. rewrite lookup_empty.
    split; [reflexivity|].
    replace (String "{" (String n0 n1 +:+ String "}" r1))
      with (("{" +:+ String n0 n1 +:+ "}") +:+ r1) by (sapp_norm; reflexivity).
    apply consumed_app.
Qed.

(** A literal prefix without an opening brace is copied. *)
Lemma placeholder_no_match `{PyRuntime} c s :
  c <> "{"%char -> re_match_at PLACEHOLDER_PATTERN (String c s) = None.
Proof.
  intros Hc. unfold re_match_at, PLACEHOLDER_PATTERN. rewrite re_match_seq_char.
  destruct (Ascii.eqb_spec "{"%char c); [congruence|reflexivity].
Qed.

Lemma re_sub_literal_prefix `{PyRuntime} repl pre s :
  all_chars (fun c => negb (Ascii.eqb c "{")) pre = true ->
  re_sub PLACEHOLDER_PATTERN repl (pre +:+ s)
  = (b ← re_sub PLACEHOLDER_PATTERN repl s; Ok (pre +:+ b)).
Proof.
  induction pre as [|c pre IH]; intros Hall.
  - rewrite sapp_nil_l. destruct (re_sub _ repl s); reflexivity.
  - simpl in Hall. apply andb_true_iff in Hall as [Hc Hall].
    apply negb_true_iff, Ascii.eqb_neq in Hc.
    rewrite sapp_cons. unfold re_sub in *. cbn [re_sub_from].
    rewrite placeholder_no_match by exact Hc.
    rewrite (IH Hall). destruct (re_sub_from _ repl 0 s); reflexivity.
Qed.

Lemma re_sub_from_skip r repl rest : forall w,
  re_sub_from r repl (String.length w) (w +:+ rest) = re_sub_from r repl 0 rest.
Proof.
  induction w as [|c w IH]; [destruct rest; reflexivity|].
  rewrite sapp_cons. exact IH.
Qed.

(** Substitution at a placeholder [{name}]: the replacement is put in the
    output and the scan goes on behind the closing brace. *)
Lemma re_sub_placeholder `{PyRuntime} repl name rest :
  is_name name = true ->
  re_sub PLACEHOLDER_PATTERN repl ("{" +:+ name +:+ "}" +:+ rest)
  = (a ← repl {| whole := "{" +:+ name +:+ "}"; groups := {[ 1%nat := name ]};
                 after := rest |};
     b ← re_sub PLACEHOLDER_PATTERN repl rest;
     Ok (a +:+ b)).
Proof.
  intros Hname. unfold re_sub.
  pose proof (placeholder_match_name name rest Hname) as Hm.
  remember ("{" +:+ name +:+ "}" +:+ rest) as s eqn:Hs.
  assert (Hs' : s = String "{" ((name +:+ "}") +:+ rest))
    by (subst s; sapp_norm; reflexivity).
  rewrite Hs' in Hm |- *. cbn [re_sub_from]. rewrite Hm. cbn [whole].
  replace (String.length ("{" +:+ name +:+ "}") - 1)%nat
    with (String.length (name +:+ "}")).
  - rewrite re_sub_from_skip. reflexivity.
  - rewrite sapp_cons, sapp_nil_l. simpl. lia.
Qed.

Lemma format_replace_name `{PyRuntime} self kwargs name v w a :
  kwargs !! name = Some v ->
  format_replace self kwargs {| whole := w; groups := {[ 1%nat := name ]}; after := a |}
  = py_str v.
Proof.
  intros Hv. unfold format_replace, group. cbn [groups whole].
  rewrite lookup_singleton_eq. cbn [mbind option_bind]. rewrite Hv.
  rewrite lookup_singleton_ne by discriminate. reflexivity.
Qed.

(** ** Format specs *)

Lemma apply_format_unrecognized `{PyRuntime} self v spec :
  recognized_spec spec = false -> _apply_format self v spec = py_str v.
Proof.
  unfold recognized_spec, str_in. cbn [existsb].
  intros Hr. apply orb_false_iff in Hr as [Hr Hp].
  repeat (apply orb_false_iff in Hr as [? Hr]).
  unfold _apply_format.
  repeat match goal with E : String.eqb spec _ = false |- _ => rewrite E; clear E end.
  rewrite Hp. reflexivity.
Qed.

Lemma format_replace_plain `{PyRuntime} self kwargs m :
  uses_formatter kwargs (Hole m) = false ->
  format_replace self kwargs m = plain_replace kwargs m.
Proof.
  unfold uses_formatter, format_replace, plain_replace, bound_value.
  destruct (group m 1 ≫= (fun n => kwargs !! n)) as [v|]; [|reflexivity].
  destruct (group m 2) as [spec|]; [|reflexivity].
  intros Hs. rewrite apply_format_unrecognized by exact Hs.
  destruct (truthy spec); reflexivity.
Qed.

(** ** Message lookup *)







(** ** The registry of locales *)

Lemma add_messages_locale msgs : forall c,
  cat_locale (add_messages c msgs) = cat_locale c.
Proof.
  unfold add_messages. induction msgs as [|kv msgs IH]; intros c; [reflexivity|].
  simpl. rewrite IH. reflexivity.
Qed.

Lemma registry_init d : registry_consistent (Translator_init d).
Proof.
  unfold registry_consistent, Translator_init, add_locale; cbn.
  rewrite !dom_insert_L, !dom_empty_L.
  repeat split; try reflexivity.
  - intros code c Hc. apply lookup_insert_Some in Hc as [[<- <-]|[_ Hc]].
    + rewrite lookup_insert_eq. reflexivity.
    + rewrite lookup_empty in Hc. discriminate.
  - intros code f Hf. apply lookup_insert_Some in Hf as [[<- <-]|[_ Hf]].
    + rewrite lookup_insert_eq. reflexivity.
    + rewrite lookup_empty in Hf. discriminate.
Qed.

Lemma registry_step self o :
  registry_consistent self -> registry_consistent (step self o).
Proof.
  intros (Hc & Hf & Hcl & Hfl). destruct o as [l|c|l fs|l ms]; cbn.
  - unfold registry_consistent, add_locale; cbn. rewrite !dom_insert_L, <- Hc, <- Hf.
    repeat split; try reflexivity.
    + intros code c H. apply lookup_insert_Some in H as [[<- <-]|[Hne H]].
      * rewrite lookup_insert_eq. reflexivity.
      * rewrite lookup_insert_ne by exact Hne. apply Hcl, H.
    + intros code f H. apply lookup_insert_Some in H as [[<- <-]|[Hne H]].
      * rewrite lookup_insert_eq. reflexivity.
      * rewrite lookup_insert_ne by exact Hne. apply Hfl, H.
  - unfold set_locale. destruct (locales self !! c); cbn; repeat split; assumption.
  - repeat split; assumption.
  - unfold load_messages. destruct (catalogs self !! l) as [catalog|] eqn:E;
      [|repeat split; assumption].
    unfold registry_consistent; cbn. rewrite dom_insert_L.
    assert (Hl : {[ l ]} ∪ dom (catalogs self) = dom (catalogs self)).
    { apply subseteq_union_1_L, singleton_subseteq_l, elem_of_dom. eauto. }
    rewrite Hl.
    repeat split; [exact Hc|exact Hf| |exact Hfl].
    intros code c H'. apply lookup_insert_Some in H' as [[<- <-]|[Hne H']].
    + rewrite add_messages_locale. apply Hcl, E.
    + apply Hcl, H'.
Qed.

(** What holds of the registry after every sequence of operations: the
    three maps have the same codes and agree on the locale of each, and
    [en] is always registered. *)
Lemma registry_invariant d ops :
  let self := run ops (Translator_init d) in
  registry_consistent self
  /\ default_locale self = d
  /\ is_Some (catalogs self !! "en").
Proof.
  cbn zeta. unfold run.
  set (P := fun s => registry_consistent s /\ default_locale s = d
                     /\ is_Some (catalogs s !! "en")).
  change (P (fold_left step ops (Translator_init d))).
  assert (Hstep : forall s o, P s -> P (step s o)).
  { intros s o (Hr & Hd & He). split; [apply registry_step, Hr|]. split.
    - destruct o as [l|c|l fs|l ms]; cbn; try exact Hd.
      + unfold set_locale. destruct (locales s !! c); exact Hd.
      + unfold load_messages. destruct (catalogs s !! l); exact Hd.
    - destruct o as [l|c|l fs|l ms]; cbn; try exact He.
      + rewrite lookup_insert_is_Some. destruct (decide (code l = "en")); auto.
      + unfold set_locale. destruct (locales s !! c); exact He.
      + unfold load_messages. destruct (catalogs s !! l); cbn; [|exact He].
        rewrite lookup_insert_is_Some. destruct (decide (l = "en")); auto. }
  assert (Hinit : P (Translator_init d)).
  { split; [apply registry_init|]. split; [reflexivity|].
    unfold Translator_init, add_locale; cbn. rewrite lookup_insert_eq. eauto. }
  revert Hinit. generalize (Translator_init d).
  induction ops as [|o ops IH]; intros s Hs; [exact Hs|].
  simpl. apply IH, Hstep, Hs.
Qed.

(** C3 on the code: the constructor takes any default locale and registers
    [en] only.  With the default locale [fr] the translator has no catalog
    for its default locale, and [t] raises [KeyError] when a message found
    through the fallback chain is to be formatted, where it reads
    [self.formatters[self.default_locale]]. *)
Theorem default_locale_without_catalog `{PyRuntime} :
  let self := Translator_init "fr" in
  default_locale self = "fr"
  /\ catalogs self !! default_locale self = None
  /\ get_catalog self None = None
  /\ dom (catalogs self) = {[ "en" ]}
  /\ t (set_fallback_chain (load_messages self "en" [("hi", "Hi")]) "fr" ["en"])
       "hi" None "" ∅ = Raise KeyError.
Proof.
  cbn zeta. repeat split; vm_compute; reflexivity.
Qed.

(** ** Import and export *)

(** C5 on the code: for an object without a [value] field the import reads
    the field [one] of the object itself, not the entry [one] of its
    [plural] mapping, so the default text of such an object is empty where
    the specification takes it from the plural forms. *)
Theorem load_json_default_text :
  let c := (load_json (new_catalog en) [("items", EObj items_object)]).1 in
  (value <$> get c "items" "") = Some ""
  /\ spec_default_text items_object = "{count} item"
  /\ (plural_forms <$> get c "items" "") = o_plural items_object.
Proof. cbn zeta. repeat split; vm_compute; reflexivity. Qed.

(** What the import does with an object, field by field. *)
Lemma message_of_obj_fields k o :
  let m := message_of_obj k o in
  key m = k
  /\ value m = match o_value o with
               | Some v => v
               | None => default "" (o_one o)
               end
  /\ plural_forms m = default ∅ (o_plural o)
  /\ context m = default "" (o_context o)
  /\ description m = default "" (o_description o).
Proof. cbn zeta. destruct o as [[v|] [one|] pl ctx descr]; repeat split. Qed.

Lemma to_dict_add c msg :
  to_dict (add c msg)
  = <[full_key (context msg) (key msg) := export_message msg]> (to_dict c).
Proof. unfold to_dict, add; cbn. apply fmap_insert. Qed.

(** Importing an exported entry under its key exports to the same entry. *)
Lemma load_item_exported st k msg :
  to_dict (load_item st (k, export_message msg)).1
  = <[k := export_message msg]> (to_dict st.1).
Proof.
  unfold load_item, export_message; cbn [fst snd].
  destruct (decide (plural_forms msg = ∅)) as [He|Hne]; rewrite to_dict_add; cbn.
  - unfold export_message; cbn. rewrite decide_True by reflexivity. reflexivity.
  - unfold export_message; cbn. rewrite decide_False by exact Hne. reflexivity.
Qed.

Lemma load_json_exported : forall data st,
  Forall (fun kv : string * entry => exists msg, kv.2 = export_message msg) data ->
  to_dict (fold_left load_item data st).1
  = fold_left (fun m (kv : string * entry) => <[kv.1 := kv.2]> m) data (to_dict st.1).
Proof.
  induction data as [|[k e] data IH]; intros st Hall; [reflexivity|].
  apply Forall_cons in Hall as [[msg He] Hall]. cbn in He. subst e.
  cbn [fold_left]. rewrite IH by exact Hall.
  rewrite load_item_exported. reflexivity.
Qed.

Lemma load_json_count : forall data st,
  (fold_left load_item data st).2 = (length data + st.2)%nat.
Proof.
  induction data as [|kv data IH]; intros st; [reflexivity|].
  cbn [fold_left]. rewrite IH. cbn. lia.
Qed.

Lemma fold_left_insert_list_to_map (data : list (string * entry)) :
  fold_left (fun (m : gmap string entry) (kv : string * entry) => <[kv.1 := kv.2]> m)
    data ∅
  = list_to_map (reverse data).
Proof.
  unfold reverse. rewrite <- rev_alt.
  rewrite <- fold_left_rev_right. unfold list_to_map.
  induction (rev (rev data)) as [|kv l IH]; [reflexivity|].
  cbn. rewrite IH. reflexivity.
Qed.

Lemma export_message_inj m m' :
  export_message m = export_message m' ->
  value m = value m' /\ plural_forms m = plural_forms m'.
Proof.
  unfold export_message.
  destruct (decide (plural_forms m = ∅)) as [E|E],
    (decide (plural_forms m' = ∅)) as [E'|E']; intros H; inversion H; subst;
    split; congruence.
Qed.

Lemma roundtrip_to_dict c l data :
  data ≡ₚ map_to_list (to_dict c) ->
  to_dict (load_json (new_catalog l) data).1 = to_dict c.
Proof.
  intros Hperm. unfold load_json. rewrite load_json_exported.
  - cbn [fst]. unfold to_dict at 1, new_catalog; cbn [messages].
    rewrite fmap_empty, fold_left_insert_list_to_map.
    rewrite <- (list_to_map_to_list (to_dict c)).
    apply list_to_map_proper.
    + rewrite reverse_Permutation, Hperm. apply NoDup_fst_map_to_list.
    + rewrite reverse_Permutation. exact Hperm.
  - rewrite Hperm. apply Forall_forall. intros [k e] Hin.
    apply elem_of_map_to_list in Hin. unfold to_dict in Hin.
    apply lookup_fmap_Some in Hin as (msg & <- & _). exists msg. reflexivity.
Qed.

(** C6: the export writes, under the slot of each message, the object with
    the text and the plural forms when the message has plural forms, and the
    bare text otherwise, and nothing else.  Exporting a catalog, importing
    the exported mapping into a fresh catalog and exporting again gives the
    first export, in whatever order the import goes through the items; every
    exported item is imported, and the imported message of a slot has the
    text and the plural forms of the exported one.  This holds for every
    catalog, so in particular for one with an entry with plural forms and a
    simple entry. *)
Theorem export_import_roundtrip (c : MessageCatalog) (l : Locale)
    (data : list (string * entry)) :
  data ≡ₚ map_to_list (to_dict c) ->
  to_dict (load_json (new_catalog l) data).1 = to_dict c
  /\ (load_json (new_catalog l) data).2 = size (messages c)
  /\ (forall k,
        to_dict c !! k
        = match messages c !! k with
          | Some m =>
              Some (if decide (plural_forms m = ∅) then EStr (value m)
                    else EObj {| o_value := Some (value m); o_one := None;
                                 o_plural := Some (plural_forms m);
                                 o_context := None; o_description := None |})
          | None => None
          end)
  /\ (forall k m',
        messages (load_json (new_catalog l) data).1 !! k = Some m' ->
        exists m, messages c !! k = Some m
                  /\ value m' = value m /\ plural_forms m' = plural_forms m)
  /\ (forall k m,
        messages c !! k = Some m ->
        exists m', messages (load_json (new_catalog l) data).1 !! k = Some m'
                   /\ value m' = value m /\ plural_forms m' = plural_forms m).
Proof.
  intros Hperm. pose proof (roundtrip_to_dict c l data Hperm) as Hrt.
  split; [exact Hrt|]. split.
  { unfold load_json. rewrite load_json_count. cbn [snd]. rewrite Hperm, Nat.add_0_r.
    rewrite length_map_to_list. unfold to_dict. apply map_size_fmap. }
  split.
  { intros k. unfold to_dict. rewrite lookup_fmap.
    destruct (messages c !! k) as [m|]; reflexivity. }
  split.
  - intros k m' Hm'.
    assert (Hl : to_dict (load_json (new_catalog l) data).1 !! k
                 = Some (export_message m'))
      by (unfold to_dict; rewrite lookup_fmap, Hm'; reflexivity).
    rewrite Hrt in Hl. unfold to_dict in Hl.
    apply lookup_fmap_Some in Hl as (m & He & Hm).
    exists m. split; [exact Hm|]. symmetry in He.
    apply export_message_inj in He. exact He.
  - intros k m Hm.
    assert (Hl : to_dict c !! k = Some (export_message m))
      by (unfold to_dict; rewrite lookup_fmap, Hm; reflexivity).
    rewrite <- Hrt in Hl. unfold to_dict in Hl.
    apply lookup_fmap_Some in Hl as (m' & He & Hm').
    exists m'. split; [exact Hm'|].
    apply export_message_inj in He. exact He.
Qed.

Lemma export_import_roundtrip_witness :
  let data :=
    [("welcome", EStr "Welcome, {name}!");
     ("cart:items",
      EObj {| o_value := Some "You have {count} item"; o_one := None;
              o_plural := Some {[ "one" := "You have {count} item";
                                  "other" := "You have {count} items" ]};
              o_context := None; o_description := None |})] in
  to_dict (load_json (new_catalog en) data).1 = to_dict example_catalog
  /\ (load_json (new_catalog en) data).2 = 2%nat
  /\ to_dict example_catalog !! "welcome" = Some (EStr "Welcome, {name}!")
  /\ to_dict example_catalog = list_to_map data.
Proof.
  cbn zeta.
  destruct (export_import_roundtrip example_catalog en
              [("welcome", EStr "Welcome, {name}!");
               ("cart:items",
                EObj {| o_value := Some "You have {count} item"; o_one := None;
                        o_plural := Some {[ "one" := "You have {count} item";
                                            "other" := "You have {count} items" ]};
                        o_context := None; o_description := None |})])
    as (Hrt & Hcount & Hexp & _).
  { vm_compute. first [reflexivity | apply perm_swap]. }
  split; [exact Hrt|]. split; [exact Hcount|].
  split; [rewrite Hexp; vm_compute; reflexivity|].
  vm_compute. reflexivity.
Defined.

(** ** [str.replace] *)

Lemma prefix_nil s : String.prefix "" s = true.
Proof. destruct s; reflexivity. Qed.

Lemma prefix_app_self old s : String.prefix old (old +:+ s) = true.
Proof.
  induction old as [|o old IH]; [apply prefix_nil|]. rewrite sapp_cons. simpl.
  destruct (ascii_dec o o); [exact IH|congruence].
Qed.

Lemma prefix_other o old c s : c <> o -> String.prefix (String o old) (String c s) = false.
Proof. intros Hc. simpl. destruct (ascii_dec o c); [congruence|reflexivity]. Qed.

Lemma replace_from_skip old new s : forall w,
  replace_from old new (String.length w) (w +:+ s) = replace_from old new 0 s.
Proof.
  induction w as [|c w IH]; [reflexivity|]. rewrite sapp_cons. exact IH.
Qed.

(** An occurrence at the front is replaced and the scan goes on behind it. *)
Lemma replace_from_token o old new s :
  replace_from (String o old) new 0 (String o old +:+ s)
  = new +:+ replace_from (String o old) new 0 s.
Proof.
  pose proof (prefix_app_self (String o old) s) as Hp.
  rewrite sapp_cons in Hp |- *. cbn [replace_from]. rewrite Hp.
  replace (String.length (String o old) - 1)%nat with (String.length old)
    by (simpl; lia).
  rewrite replace_from_skip. reflexivity.
Qed.

(** Text without the first character of [old] is copied. *)
Lemma replace_from_free o old new s : forall a,
  all_chars (fun c => negb (Ascii.eqb c o)) a = true ->
  replace_from (String o old) new 0 (a +:+ s)
  = a +:+ replace_from (String o old) new 0 s.
Proof.
  induction a as [|c a IH]; intros Hall; [reflexivity|].
  simpl in Hall. apply andb_true_iff in Hall as [Hc Hall].
  apply negb_true_iff, Ascii.eqb_neq in Hc.
  rewrite !sapp_cons. cbn [replace_from].
  rewrite (prefix_other o old c (a +:+ s) Hc), (IH Hall). reflexivity.
Qed.

Lemma replace_from_free_all o old new a :
  all_chars (fun c => negb (Ascii.eqb c o)) a = true ->
  replace_from (String o old) new 0 a = a.
Proof.
  intros Hall. rewrite <- (sapp_nil_r a) at 1.
  rewrite replace_from_free by exact Hall. apply sapp_nil_r.
Qed.

(** Grouped text in which the separator is [old] becomes the same text
    grouped with [new]. *)
Lemma replace_from_group o old new rest : forall ds,
  all_chars (fun c => negb (Ascii.eqb c o)) ds = true ->
  replace_from (String o old) new 0 (group_with (String o old) ds +:+ rest)
  = group_with new ds +:+ replace_from (String o old) new 0 rest.
Proof.
  induction ds as [|c ds IH]; intros Hall; [reflexivity|].
  simpl in Hall. apply andb_true_iff in Hall as [Hc Hall].
  apply negb_true_iff, Ascii.eqb_neq in Hc.
  cbn [group_with].
  rewrite (sapp_cons c _ rest), (sapp_cons c _ (replace_from _ _ _ rest)).
  cbn [replace_from]. rewrite (prefix_other o old c _ Hc). f_equal.
  destruct (negb (String.length ds =? 0)%nat && (String.length ds mod 3 =? 0)%nat).
  - rewrite !sapp_assoc, replace_from_token, (IH Hall). reflexivity.
  - apply IH, Hall.
Qed.

Lemma prefix_app_false old : forall a b,
  all_chars (fun c => negb (is_digit c)) old = true ->
  all_chars is_digit b = true ->
  String.prefix old a = false ->
  String.prefix old (a +:+ b) = false.
Proof.
  induction old as [|o old IH]; intros a b Ho Hb Hp;
    [rewrite prefix_nil in Hp; discriminate|].
  simpl in Ho. apply andb_true_iff in Ho as [Hod Ho].
  destruct a as [|x a].
  - rewrite sapp_nil_l. destruct b as [|c b]; [reflexivity|].
    simpl in Hb. apply andb_true_iff in Hb as [Hc _].
    apply prefix_other. intros ->. rewrite Hc in Hod. discriminate.
  - rewrite sapp_cons. simpl in Hp |- *.
    destruct (ascii_dec o x); [|reflexivity]. apply IH; assumption.
Qed.

Lemma occurs_digits old : forall b,
  old <> "" ->
  all_chars (fun c => negb (is_digit c)) old = true ->
  all_chars is_digit b = true ->
  occurs old b = false.
Proof.
  intros b Hne Ho. induction b as [|c b IH]; intros Hb.
  - destruct old; [congruence|reflexivity].
  - cbn [occurs]. rewrite <- (sapp_nil_l (String c b)).
    rewrite prefix_app_false; try assumption.
    + simpl in Hb. apply andb_true_iff in Hb as [_ Hb]. apply IH, Hb.
    + destruct old; [congruence|reflexivity].
Qed.

(** An occurrence of a digit-free [old] in [a +:+ b], with [b] made of
    digits, lies in [a]. *)
Lemma occurs_app_digits old b : forall a,
  old <> "" ->
  all_chars (fun c => negb (is_digit c)) old = true ->
  all_chars is_digit b = true ->
  occurs old a = false ->
  occurs old (a +:+ b) = false.
Proof.
  intros a Hne Ho Hb. induction a as [|x a IH]; intros Ha.
  - rewrite sapp_nil_l. apply occurs_digits; assumption.
  - cbn [occurs] in Ha. apply orb_false_iff in Ha as [Hp Ha].
    rewrite sapp_cons. cbn [occurs]. rewrite <- sapp_cons.
    rewrite prefix_app_false by assumption. apply IH, Ha.
Qed.

Lemma replace_from_absent old new : forall s,
  occurs old s = false -> replace_from old new 0 s = s.
Proof.
  induction s as [|c s IH]; intros Ho; [reflexivity|].
  cbn [occurs] in Ho. apply orb_false_iff in Ho as [Hp Ho].
  cbn [replace_from]. rewrite Hp, (IH Ho). reflexivity.
Qed.

(** ** Digits *)

Lemma all_chars_impl (p q : ascii -> bool) s :
  (forall c, p c = true -> q c = true) ->
  all_chars p s = true -> all_chars q s = true.
Proof.
  intros Hpq. induction s as [|c s IH]; [reflexivity|]. simpl.
  intros [Hc Hs]%andb_true_iff. rewrite (Hpq c Hc), (IH Hs). reflexivity.
Qed.

Lemma all_chars_app p a b :
  all_chars p (a +:+ b) = all_chars p a && all_chars p b.
Proof.
  induction a as [|c a IH]; [reflexivity|]. rewrite sapp_cons. simpl.
  rewrite IH. apply andb_assoc.
Qed.

Lemma all_chars_group p sep : forall ds,
  all_chars p sep = true -> all_chars p ds = true ->
  all_chars p (group_with sep ds) = true.
Proof.
  intros ds Hsep. induction ds as [|c ds IH]; [reflexivity|].
  simpl. intros [Hc Hds]%andb_true_iff. rewrite Hc. simpl.
  destruct (_ && _); [rewrite all_chars_app, Hsep|]; simpl; apply IH, Hds.
Qed.

Lemma uint_digits d : all_chars is_digit (NilEmpty.string_of_uint d) = true.
Proof. induction d; simpl; try reflexivity; assumption. Qed.

Lemma digits_all_digit n : all_chars is_digit (digits n) = true.
Proof.
  unfold digits, NilZero.string_of_uint.
  destruct (N.to_uint n) eqn:E; try reflexivity; rewrite <- E; apply uint_digits.
Qed.

Lemma digit_char_is_digit n : is_digit (digit_char n) = true.
Proof.
  unfold digit_char. pose proof (N.mod_upper_bound n 10 ltac:(discriminate)) as Hlt.
  destruct (n mod 10)%N as [|p]; [reflexivity|].
  do 4 (destruct p as [p|p|]; try reflexivity; try (exfalso; lia)).
Qed.

Lemma fixed_digits_all_digit r : forall k, all_chars is_digit (fixed_digits k r) = true.
Proof.
  induction k as [|k IH]; [reflexivity|]. cbn [fixed_digits all_chars].
  rewrite digit_char_is_digit, IH. reflexivity.
Qed.


Lemma digit_not c o : is_digit o = false -> is_digit c = true -> negb (Ascii.eqb c o) = true.
Proof.
  intros Ho Hc. apply negb_true_iff, Ascii.eqb_neq. intros ->. congruence.
Qed.

(** ** The separators of [format_number] *)

(** The three replacements on a number written with a sign, grouped integer
    digits and no fraction. *)
Lemma separators_integer tsep dsep sign ip :
  all_chars (fun c => Ascii.eqb c "-") sign = true ->
  all_chars is_digit ip = true ->
  replace THOUSANDS tsep
    (replace "." dsep (replace "," THOUSANDS (sign +:+ group_with "," ip)))
  = sign +:+ group_with tsep ip.
Proof.
  intros Hsign Hip. unfold replace, THOUSANDS. cbn [String.eqb Ascii.eqb Bool.eqb].
  assert (Hs : forall o, Ascii.eqb "-" o = false ->
                 all_chars (fun c => negb (Ascii.eqb c o)) sign = true).
  { intros o Ho. eapply all_chars_impl; [|exact Hsign].
    intros c Hc. apply Ascii.eqb_eq in Hc as ->. rewrite Ho. reflexivity. }
  assert (Hd : forall o, is_digit o = false ->
                 all_chars (fun c => negb (Ascii.eqb c o)) ip = true).
  { intros o Ho. eapply all_chars_impl; [|exact Hip]. intros c. apply digit_not, Ho. }
  rewrite (replace_from_free "," "" _ _ sign) by (apply Hs; reflexivity).
  rewrite <- (sapp_nil_r (group_with "," ip)).
  rewrite (replace_from_group "," "" _ "" ip) by (apply Hd; reflexivity).
  cbn [replace_from]. rewrite sapp_nil_r.
  rewrite (replace_from_free_all "." "").
  2:{ rewrite all_chars_app, (Hs "."%char eq_refl). cbn [andb].
      apply all_chars_group; [reflexivity|apply Hd; reflexivity]. }
  rewrite (replace_from_free "_" "_THOUSANDS__" _ _ sign) by (apply Hs; reflexivity).
  rewrite <- (sapp_nil_r (group_with _ ip)).
  rewrite (replace_from_group "_" "_THOUSANDS__" _ "" ip) by (apply Hd; reflexivity).
  cbn [replace_from]. rewrite sapp_nil_r. reflexivity.
Qed.

(** The three replacements on a number with a fraction. *)
Lemma separators_fraction tsep dsep sign ip fds :
  all_chars (fun c => Ascii.eqb c "-") sign = true ->
  all_chars is_digit ip = true ->
  all_chars is_digit fds = true ->
  occurs THOUSANDS dsep = false ->
  replace THOUSANDS tsep
    (replace "." dsep
       (replace "," THOUSANDS (sign +:+ group_with "," ip +:+ "." +:+ fds)))
  = sign +:+ group_with tsep ip +:+ dsep +:+ fds.
Proof.
  intros Hsign Hip Hfds Hocc. unfold replace, THOUSANDS in *.
  cbn [String.eqb Ascii.eqb Bool.eqb].
  assert (Hs : forall o, Ascii.eqb "-" o = false ->
                 all_chars (fun c => negb (Ascii.eqb c o)) sign = true).
  { intros o Ho. eapply all_chars_impl; [|exact Hsign].
    intros c Hc. apply Ascii.eqb_eq in Hc as ->. rewrite Ho. reflexivity. }
  assert (Hd : forall o ds, is_digit o = false -> all_chars is_digit ds = true ->
                 all_chars (fun c => negb (Ascii.eqb c o)) ds = true).
  { intros o ds Ho Hds. eapply all_chars_impl; [|exact Hds].
    intros c. apply digit_not, Ho. }
  (* commas *)
  rewrite (replace_from_free "," "" _ _ sign) by (apply Hs; reflexivity).
  rewrite (replace_from_group "," "" _ _ ip) by (apply Hd; [reflexivity|exact Hip]).
  rewrite (replace_from_free_all "," "" _ ("." +:+ fds)).
  2:{ rewrite all_chars_app. cbn. apply Hd; [reflexivity|exact Hfds]. }
  (* the decimal point *)
  rewrite <- (sapp_assoc sign (group_with _ ip) ("." +:+ fds)).
  rewrite (replace_from_free "." "" dsep _ (sign +:+ group_with _ ip)).
  2:{ rewrite all_chars_app, (Hs "."%char eq_refl). cbn [andb].
      apply all_chars_group; [reflexivity|apply Hd; [reflexivity|exact Hip]]. }
  rewrite (replace_from_token "." "" dsep fds).
  rewrite (replace_from_free_all "." "" dsep fds)
    by (apply Hd; [reflexivity|exact Hfds]).
  (* the token *)
  rewrite sapp_assoc.
  rewrite (replace_from_free "_" "_THOUSANDS__" _ _ sign) by (apply Hs; reflexivity).
  rewrite (replace_from_group "_" "_THOUSANDS__" _ _ ip)
    by (apply Hd; [reflexivity|exact Hip]).
  rewrite replace_from_absent; [reflexivity|].
  apply occurs_app_digits; [discriminate|reflexivity|exact Hfds|exact Hocc].
Qed.

Lemma sign_chars (b : bool) :
  all_chars (fun c => Ascii.eqb c "-") (if b then "-" else "") = true.
Proof. destruct b; reflexivity. Qed.

(** An int is written with its digits grouped; [decimals] is not used.  An
    int of more digits than are converted is an error. *)
Lemma format_number_int `{PyRuntime} self z decimals :
  format_number self (VNum (NInt z)) decimals
  = if int_digits_ok z
    then Ok (render_int (thousands_separator (fmt_locale self)) z)
    else Raise ValueError.
Proof.
  unfold format_number, format_int_grouped, render_int.
  destruct (int_digits_ok z); [|reflexivity]. cbn [mbind result_bind].
  f_equal. apply (separators_integer _ _ (if (z <? 0)%Z then "-" else "")).
  - apply sign_chars.
  - apply digits_all_digit.
Qed.


(** The decimal digits of a power of ten: a one and the zeros. *)
Lemma of_uint_acc_zeros : forall k acc,
  Npos (Pos.of_uint_acc (Nat.iter k Decimal.D0 Decimal.Nil) acc)
  = (Npos acc * 10 ^ N.of_nat k)%N.
Proof.
  induction k as [|k IH]; intros acc.
  - cbn. lia.
  - change (Nat.iter (S k) Decimal.D0 Decimal.Nil)
      with (Decimal.D0 (Nat.iter k Decimal.D0 Decimal.Nil)).
    cbn [Pos.of_uint_acc]. rewrite IH, Nat2N.inj_succ, N.pow_succ_r'. lia.
Qed.

Lemma to_uint_pow10 k :
  N.to_uint (10 ^ N.of_nat k) = Decimal.D1 (Nat.iter k Decimal.D0 Decimal.Nil).
Proof.
  replace (10 ^ N.of_nat k)%N
    with (N.of_uint (Decimal.D1 (Nat.iter k Decimal.D0 Decimal.Nil))).
  - rewrite DecimalN.Unsigned.to_of. reflexivity.
  - unfold N.of_uint. cbn [Pos.of_uint]. rewrite of_uint_acc_zeros. lia.
Qed.

Lemma zeros_length k :
  String.length (NilEmpty.string_of_uint (Nat.iter k Decimal.D0 Decimal.Nil)) = k.
Proof.
  induction k as [|k IH]; [reflexivity|].
  change (Nat.iter (S k) Decimal.D0 Decimal.Nil)
    with (Decimal.D0 (Nat.iter k Decimal.D0 Decimal.Nil)).
  cbn [NilEmpty.string_of_uint String.length]. rewrite IH. reflexivity.
Qed.

Lemma digits_pow10_length k : String.length (digits (10 ^ N.of_nat k)) = S k.
Proof.
  unfold digits. rewrite to_uint_pow10.
  cbn [NilZero.string_of_uint NilEmpty.string_of_uint String.length].
  rewrite zeros_length. reflexivity.
Qed.

(** From [10 ** 4300] on an int has too many digits to be written. *)
Lemma int_digits_ok_pow10 k :
  (max_str_digits <= k)%nat -> int_digits_ok (10 ^ Z.of_nat k) = false.
Proof.
  intros Hk. unfold int_digits_ok.
  replace (Z.abs_N (10 ^ Z.of_nat k)) with (10 ^ N.of_nat k)%N.
  - rewrite digits_pow10_length. apply Nat.leb_gt. lia.
  - rewrite <- nat_N_Z, <- (N2Z.inj_pow 10), Zabs2N.id. reflexivity.
Qed.

Lemma int_digits_ok_abs z : int_digits_ok (Z.of_N (Z.abs_N z)) = int_digits_ok z.
Proof. unfold int_digits_ok. rewrite Zabs2N.id. reflexivity. Qed.

Example int_digits_ok_ex :
  int_digits_ok (10 ^ 4300) = false /\ int_digits_ok (-1234567) = true.
Proof.
  split; [|reflexivity].
  change (10 ^ 4300)%Z with (10 ^ Z.of_nat 4300)%Z.
  apply int_digits_ok_pow10. reflexivity.
Qed.

Lemma format_number_finite `{PyRuntime} self neg m e decimals :
  (0 <= decimals <= max_precision)%Z ->
  ((0 < decimals)%Z ->
   occurs THOUSANDS (decimal_separator (fmt_locale self)) = false) ->
  format_number self (VNum (NFloat (FFin neg m e))) decimals
  = Ok (render_fixed (thousands_separator (fmt_locale self))
          (decimal_separator (fmt_locale self)) neg m e (Z.to_nat decimals)).
Proof.
  intros [Hd Hmax] Hocc. unfold format_number, format_float_f.
  destruct (Z.ltb_spec decimals 0) as [Hlt|_]; [lia|].
  destruct (Z.ltb_spec max_precision decimals) as [Hgt|_]; [lia|].
  cbn [orb mbind result_bind]. f_equal. unfold render_fixed.
  destruct (Nat.eqb_spec (Z.to_nat decimals) 0) as [E|E].
  - rewrite !sapp_nil_r. apply separators_integer;
      [apply sign_chars|apply digits_all_digit].
  - apply separators_fraction;
      [apply sign_chars|apply digits_all_digit|apply fixed_digits_all_digit|].
    apply Hocc. lia.
Qed.

(** A precision above [max_precision] is an error for every float. *)
Lemma format_number_precision_too_big `{PyRuntime} self f decimals :
  (max_precision < decimals)%Z ->
  format_number self (VNum (NFloat f)) decimals = Raise ValueError.
Proof.
  intros Hd. unfold format_number, format_float_f.
  destruct (Z.ltb_spec decimals 0); [reflexivity|].
  destruct (Z.ltb_spec max_precision decimals); [reflexivity|lia].
Qed.




(** ** Currency *)

Lemma format_field_bound kw name v :
  all_chars is_ascii name = true ->
  all_digits name = false -> kw !! name = Some v -> format_field kw name = Ok v.
Proof. unfold format_field. intros -> -> ->. reflexivity. Qed.

Lemma str_format_symbol_amount symbol amount :
  str_format "{symbol}{amount}" {[ "symbol" := symbol; "amount" := amount ]}
  = Ok (symbol +:+ amount).
Proof.
  unfold str_format. cbn -[format_field String.append]. sapp_norm.
  rewrite (format_field_bound _ "symbol" symbol);
    [|reflexivity|reflexivity|apply lookup_insert_eq].
  rewrite (format_field_bound _ "amount" amount); [|reflexivity|reflexivity|].
  - cbn. sapp_norm. reflexivity.
  - rewrite lookup_insert_ne by discriminate. apply lookup_singleton_eq.
Qed.

Lemma format_currency_int_too_long `{PyRuntime} self z symbol :
  int_digits_ok z = false ->
  format_currency self (VNum (NInt z)) symbol = Raise ValueError.
Proof.
  intros Hz. unfold format_currency, format_decimal.
  cbn [value_abs py_abs mag_number mbind result_bind].
  rewrite format_number_int, int_digits_ok_abs, Hz. reflexivity.
Qed.

(** C9, as the code has it: for a finite float the amount is the absolute
    value with two fractional digits, grouped, in the separators of the
    locale; symbol and amount are substituted into the currency format of
    the locale; and a minus sign is put before the whole result exactly when
    the value is below zero.  With the format [{symbol}{amount}] the result
    is sign, symbol, amount.  For an int the amount is the grouped absolute
    value without a fraction; sign and substitution are the same; an int
    of more digits than the interpreter converts is a [ValueError]. *)
Theorem format_currency_float `{PyRuntime} (self : MessageFormatter)
    (neg : bool) (m : N) (e : Z) (symbol : option string) :
  occurs THOUSANDS (decimal_separator (fmt_locale self)) = false ->
  let l := fmt_locale self in
  let sym := str_or symbol (currency_symbol l) in
  let amount :=
    render_fixed (thousands_separator l) (decimal_separator l) false m e 2 in
  let negative := neg && negb (m =? 0)%N in
  format_currency self (VNum (NFloat (FFin neg m e))) symbol
  = (formatted ← str_format (currency_format l)
                   {[ "symbol" := sym; "amount" := amount ]};
     Ok (if negative then "-" +:+ formatted else formatted))
  /\ (currency_format l = "{symbol}{amount}" ->
      format_currency self (VNum (NFloat (FFin neg m e))) symbol
      = Ok ((if negative then "-" else "") +:+ sym +:+ amount))
  /\ (forall z,
        format_currency self (VNum (NInt z)) symbol
        = if int_digits_ok z
          then
            formatted ← str_format (currency_format l)
                          {[ "symbol" := sym;
                             "amount" := render_int (thousands_separator l) (Z.abs z) ]};
            Ok (if (z <? 0)%Z then "-" +:+ formatted else formatted)
          else Raise ValueError).
Proof.
  intros Hocc l sym amount negative.
  assert (Hc : format_currency self (VNum (NFloat (FFin neg m e))) symbol
               = (formatted ← str_format (currency_format l)
                                {[ "symbol" := sym; "amount" := amount ]};
                  Ok (if negative then "-" +:+ formatted else formatted))).
  { unfold format_currency, format_decimal. cbn [value_abs py_abs mag_number].
    cbn [mbind result_bind].
    rewrite (format_number_finite self false m e 2)
      by first [unfold max_precision; lia | intros; exact Hocc].
    cbn [mbind result_bind]. fold l sym amount.
    destruct (str_format _ _); reflexivity. }
  split; [exact Hc|]. split.
  - intros Hfmt. rewrite Hc, Hfmt, str_format_symbol_amount.
    cbn [mbind result_bind]. destruct negative; reflexivity.
  - intros z. unfold format_currency, format_decimal.
    cbn [value_abs py_abs mag_number mbind result_bind].
    rewrite format_number_int, int_digits_ok_abs.
    destruct (int_digits_ok z); [|reflexivity].
    cbn [mbind result_bind value_negative].
    rewrite N2Z.inj_abs_N. fold l sym.
    destruct (str_format _ _); reflexivity.
Qed.

Lemma format_currency_float_witness :
  format_currency en_formatter (VNum (NFloat f_neg_12_3)) (Some "€") = Ok "-€12.30".
Proof.
  pose proof (format_currency_float en_formatter true 3462142213541069 (-48)
                (Some "€") ltac:(vm_compute; reflexivity)) as (_ & Hw & _).
  unfold f_neg_12_3. rewrite Hw; vm_compute; reflexivity.
Defined.

(** C9 fails as stated: the amount of an int has no fractional digits, an
    infinite value has no digits at all, and an int of 4301 digits is an
    error. *)
Lemma format_currency_counterexample :
  format_currency en_formatter (VNum (NInt (-5))) None = Ok "-$5"
  /\ spec_format_number en (NInt 5) 2 = Some "5.00"
  /\ format_currency en_formatter (VNum (NFloat (FInf true))) None = Ok "-$inf"
  /\ format_currency {| fmt_locale := token_locale |} (VNum (NFloat f_12_3)) None
     = Ok "$12 30"
  /\ spec_format_number token_locale (NFloat f_12_3) 2 = Some "12__THOUSANDS__30"
  /\ format_currency en_formatter (VNum (NInt (10 ^ 4300))) None = Raise ValueError.
Proof.
  do 5 (split; [vm_compute; reflexivity|]).
  apply format_currency_int_too_long.
  change (10 ^ 4300)%Z with (10 ^ Z.of_nat 4300)%Z.
  apply int_digits_ok_pow10. reflexivity.
Qed.

(** * Further properties of the code *)

(** ** Catalogs *)

Lemma full_key_plain key : full_key "" key = key.
Proof. reflexivity. Qed.

Lemma full_key_context ctx key :
  truthy ctx = true -> full_key ctx key = ctx +:+ ":" +:+ key.
Proof. unfold full_key. intros ->. reflexivity. Qed.

(** A qualified key is longer than the key, so it is another slot. *)
Lemma full_key_ne ctx key : truthy ctx = true -> full_key ctx key <> key.
Proof.
  intros Hc Heq. rewrite (full_key_context _ _ Hc) in Heq.
  apply (f_equal String.length) in Heq. rewrite !slength_app in Heq.
  simpl in Heq. lia.
Qed.

Lemma messages_add c msg :
  messages (add c msg) = <[full_key (context msg) (key msg) := msg]> (messages c).
Proof. reflexivity. Qed.

(** X1: a message added for a context overrides the global message of the
    same key for that context only.  With a global message [g] and a
    message [m] for a context, both for one key: the lookup with the
    context of [m] gives [m], the lookup without context gives [g], and the
    lookup with any other context that has no message of its own falls back
    to [g]. *)
Theorem get_context_override (c : MessageCatalog) (g m : Message) (ctx : string) :
  context g = "" ->
  truthy (context m) = true ->
  key g = key m ->
  truthy ctx = true ->
  full_key ctx (key m) <> full_key (context m) (key m) ->
  messages c !! full_key ctx (key m) = None ->
  let c' := add (add c g) m in
  get c' (key m) (context m) = Some m
  /\ get c' (key m) "" = Some g
  /\ get c' (key m) ctx = Some g.
Proof.
  intros Hg Hm Hk Hctx Hne Hnone c'. subst c'.
  pose proof (full_key_ne _ (key m) Hm) as Hq.
  pose proof (full_key_ne _ (key m) Hctx) as Hq'.
  unfold get. rewrite !messages_add, Hg, Hk, !full_key_plain.
  split; [rewrite lookup_insert_eq; reflexivity|].
  split.
  - rewrite lookup_insert_ne by exact Hq. rewrite lookup_insert_eq. reflexivity.
  - rewrite (lookup_insert_ne _ _ (full_key ctx (key m))) by congruence.
    rewrite (lookup_insert_ne _ _ (full_key ctx (key m))) by congruence.
    rewrite Hnone.
    rewrite lookup_insert_ne by exact Hq. rewrite lookup_insert_eq. reflexivity.
Qed.

Lemma get_context_override_witness :
  let g := simple_message "save" "Save" in
  let m := {| key := "save"; value := "Keep"; plural_forms := ∅;
              context := "menu"; description := "" |} in
  let c' := add (add (new_catalog en) g) m in
  get c' "save" "menu" = Some m
  /\ get c' "save" "" = Some g
  /\ get c' "save" "dialog" = Some g.
Proof.
  cbn zeta.
  apply (get_context_override (new_catalog en) (simple_message "save" "Save")
           {| key := "save"; value := "Keep"; plural_forms := ∅;
              context := "menu"; description := "" |} "dialog");
    try reflexivity; vm_compute; congruence.
Defined.

(** X2: the slot of a message is the text [context:key], which does not
    tell context and key apart.  A message with a context is therefore also
    what a lookup without context finds under the key [context:key], and of
    two messages whose qualified keys are the same text the one added later
    replaces the other, also under the key and context of the first. *)
Theorem get_qualified_key_shared (c : MessageCatalog) (m1 m2 : Message) :
  full_key (context m1) (key m1) = full_key (context m2) (key m2) ->
  get (add c m1) (full_key (context m1) (key m1)) "" = Some m1
  /\ get (add (add c m1) m2) (key m1) (context m1) = Some m2
  /\ messages (add (add c m1) m2) = messages (add c m2).
Proof.
  intros Heq. unfold get. rewrite !messages_add, full_key_plain.
  split; [rewrite lookup_insert_eq; reflexivity|].
  split.
  - rewrite Heq, lookup_insert_eq. reflexivity.
  - rewrite Heq. apply insert_insert_eq.
Qed.

Lemma get_qualified_key_shared_witness :
  let m1 := {| key := "b:c"; value := "first"; plural_forms := ∅;
               context := "a"; description := "" |} in
  let m2 := {| key := "c"; value := "second"; plural_forms := ∅;
               context := "a:b"; description := "" |} in
  get (add (new_catalog en) m1) "a:b:c" "" = Some m1
  /\ get (add (add (new_catalog en) m1) m2) "b:c" "a" = Some m2
  /\ messages (add (add (new_catalog en) m1) m2) = messages (add (new_catalog en) m2).
Proof.
  cbn zeta.
  apply (get_qualified_key_shared (new_catalog en)
           {| key := "b:c"; value := "first"; plural_forms := ∅;
              context := "a"; description := "" |}
           {| key := "c"; value := "second"; plural_forms := ∅;
              context := "a:b"; description := "" |}).
  reflexivity.
Defined.

Lemma add_messages_cons c kv msgs :
  add_messages c (kv :: msgs) = add_messages (add c (simple_message kv.1 kv.2)) msgs.
Proof. reflexivity. Qed.

Lemma add_messages_other : forall msgs c k,
  k ∉ msgs.*1 -> messages (add_messages c msgs) !! k = messages c !! k.
Proof.
  induction msgs as [|[k0 v0] msgs IH]; intros c k Hk; [reflexivity|].
  cbn in Hk. apply not_elem_of_cons in Hk as [Hne Hk].
  rewrite add_messages_cons, IH by exact Hk.
  rewrite messages_add. cbn. apply lookup_insert_ne. congruence.
Qed.

Lemma add_messages_lookup : forall msgs c k v,
  NoDup msgs.*1 -> (k, v) ∈ msgs ->
  messages (add_messages c msgs) !! k = Some (simple_message k v).
Proof.
  induction msgs as [|[k0 v0] msgs IH]; intros c k v Hnd Hin.
  - apply elem_of_nil in Hin. contradiction.
  - cbn in Hnd. apply NoDup_cons in Hnd as [Hk0 Hnd].
    rewrite add_messages_cons. apply elem_of_cons in Hin as [[= -> ->]|Hin].
    + rewrite add_messages_other by exact Hk0. rewrite messages_add.
      cbn. apply lookup_insert_eq.
    + apply IH; assumption.
Qed.

(** X3: after [add_messages] with the items of a dict, every key of the
    dict is found without context and has the text of the dict, with no
    plural forms, context or description; the keys that are not in the dict
    are as they were. *)
Theorem add_messages_get (c : MessageCatalog) (msgs : list (string * string)) :
  NoDup msgs.*1 ->
  (forall k v, (k, v) ∈ msgs ->
     get (add_messages c msgs) k "" = Some (simple_message k v))
  /\ (forall k, k ∉ msgs.*1 ->
        messages (add_messages c msgs) !! k = messages c !! k)
  /\ cat_locale (add_messages c msgs) = cat_locale c.
Proof.
  intros Hnd. split; [|split].
  - intros k v Hin. unfold get. rewrite full_key_plain.
    rewrite (add_messages_lookup msgs c k v Hnd Hin). reflexivity.
  - intros k Hk. apply add_messages_other, Hk.
  - apply add_messages_locale.
Qed.

Lemma add_messages_get_witness :
  let c := add_messages (add (new_catalog en) (simple_message "bye" "Bye"))
             [("hi", "Hi"); ("yes", "Yes")] in
  get c "yes" "" = Some (simple_message "yes" "Yes")
  /\ messages c !! "bye" = Some (simple_message "bye" "Bye").
Proof.
  cbn zeta.
  destruct (add_messages_get (add (new_catalog en) (simple_message "bye" "Bye"))
              [("hi", "Hi"); ("yes", "Yes")]) as (Hin & Hout & _).
  { compute_done. }
  split.
  - apply Hin. compute_done.
  - rewrite Hout; [reflexivity|]. compute_done.
Defined.

Lemma load_item_fst st kv n : (load_item st kv).1 = (load_item (st.1, n) kv).1.
Proof. reflexivity. Qed.

Lemma load_fold_fst : forall data st n,
  (fold_left load_item data st).1 = (fold_left load_item data (st.1, n)).1.
Proof.
  induction data as [|kv data IH]; intros st n; [reflexivity|].
  cbn [fold_left]. rewrite (IH (load_item st kv) O), (IH (load_item (st.1, n) kv) O).
  reflexivity.
Qed.

(** X4: [load_json] returns the number of items of the parsed mapping, the
    items that are neither a string nor an object included; such an item is
    counted and changes nothing in the catalog. *)
Theorem load_json_counts_every_item (c : MessageCatalog) :
  (forall data, (load_json c data).2 = length data)
  /\ (forall before k after,
        (load_json c (before ++ (k, EOther) :: after)).1
        = (load_json c (before ++ after)).1
        /\ (load_json c (before ++ (k, EOther) :: after)).2
           = S (load_json c (before ++ after)).2).
Proof.
  assert (Hcount : forall data, (load_json c data).2 = length data).
  { intros data. unfold load_json. rewrite load_json_count. cbn. lia. }
  split; [exact Hcount|].
  intros before k after. split.
  - unfold load_json. rewrite !fold_left_app. cbn [fold_left].
    rewrite (load_fold_fst after (load_item _ _) O).
    rewrite (load_fold_fst after (fold_left load_item before (c, O)) O).
    reflexivity.
  - rewrite !Hcount, !length_app. cbn. lia.
Qed.

(** ** What an import of an export keeps *)

(** The messages an import of exported items leaves in a catalog that had
    only such messages: each sits under its key and has neither context nor
    description. *)
Lemma load_exported_plain : forall data st,
  Forall (fun kv : string * entry => exists msg, kv.2 = export_message msg) data ->
  (forall k m, messages st.1 !! k = Some m ->
     key m = k /\ context m = "" /\ description m = "") ->
  forall k m, messages (fold_left load_item data st).1 !! k = Some m ->
    key m = k /\ context m = "" /\ description m = "".
Proof.
  induction data as [|[k0 e] data IH]; intros st Hall Hst; [exact Hst|].
  apply Forall_cons in Hall as [[msg He] Hall]. cbn in He. subst e.
  cbn [fold_left]. apply IH; [exact Hall|].
  intros k m. unfold load_item, export_message; cbn [fst snd].
  destruct (decide (plural_forms msg = ∅)); rewrite messages_add; cbn;
    intros [[<- <-]|[_ H]]%lookup_insert_Some; auto.
Qed.

(** X5: the export does not carry context and description, and the slot of
    a message becomes its key.  A catalog imported from the export of a
    catalog [c] has the slots of [c]; the message in a slot has the text and
    the plural forms of the message of [c] in that slot, the slot as its
    key, and an empty context and description. *)
Theorem import_of_export_is_plain (c : MessageCatalog) (l : Locale)
    (data : list (string * entry)) :
  data ≡ₚ map_to_list (to_dict c) ->
  let c' := (load_json (new_catalog l) data).1 in
  dom (messages c') = dom (messages c)
  /\ (forall k m', messages c' !! k = Some m' ->
        key m' = k /\ context m' = "" /\ description m' = ""
        /\ exists m, messages c !! k = Some m
                     /\ value m' = value m /\ plural_forms m' = plural_forms m).
Proof.
  intros Hperm c'. pose proof (roundtrip_to_dict c l data Hperm) as Hrt.
  fold c' in Hrt. split.
  - apply (f_equal dom) in Hrt. unfold to_dict in Hrt.
    rewrite !dom_fmap_L in Hrt. exact Hrt.
  - intros k m' Hm'.
    assert (Hplain : key m' = k /\ context m' = "" /\ description m' = "").
    { apply (load_exported_plain data (new_catalog l, O)); [| |exact Hm'].
      - rewrite Hperm. apply Forall_forall. intros [k1 e] Hin.
        apply elem_of_map_to_list in Hin. unfold to_dict in Hin.
        apply lookup_fmap_Some in Hin as (msg & <- & _). exists msg. reflexivity.
      - intros k1 m1 H1. cbn in H1. rewrite lookup_empty in H1. discriminate. }
    destruct Hplain as (Hk & Hc & Hd). repeat split; try assumption.
    assert (Hl : to_dict c' !! k = Some (export_message m'))
      by (unfold to_dict; rewrite lookup_fmap, Hm'; reflexivity).
    rewrite Hrt in Hl. unfold to_dict in Hl.
    apply lookup_fmap_Some in Hl as (m & He & Hm).
    exists m. split; [exact Hm|]. symmetry in He.
    apply export_message_inj in He. exact He.
Qed.

Lemma import_of_export_is_plain_witness :
  let c' := (load_json (new_catalog en) (map_to_list (to_dict example_catalog))).1 in
  dom (messages c') = dom (messages example_catalog)
  /\ (context <$> messages c' !! "cart:items") = Some ""
  /\ (context <$> messages example_catalog !! "cart:items") = Some "cart".
Proof.
  cbn zeta.
  destruct (import_of_export_is_plain example_catalog en
              (map_to_list (to_dict example_catalog)) ltac:(reflexivity))
    as [Hdom Hmsg].
  split; [exact Hdom|]. split; [|vm_compute; reflexivity].
  destruct (messages (load_json (new_catalog en)
              (map_to_list (to_dict example_catalog))).1 !! "cart:items")
    as [m'|] eqn:E; [|vm_compute in E; discriminate].
  destruct (Hmsg _ _ E) as (_ & Hc & _). cbn. rewrite Hc. reflexivity.
Defined.

(** ** The states of a translator *)

Lemma run_reachable d : forall ops s, reachable d s -> reachable d (run ops s).
Proof.
  unfold run. induction ops as [|o ops IH]; intros s Hs; [exact Hs|].
  cbn [fold_left]. apply IH. destruct o; cbn; constructor; exact Hs.
Qed.

Lemma load_item_locale st kv : cat_locale (load_item st kv).1 = cat_locale st.1.
Proof. unfold load_item. destruct kv.2; reflexivity. Qed.

Lemma load_fold_locale : forall data st,
  cat_locale (fold_left load_item data st).1 = cat_locale st.1.
Proof.
  induction data as [|kv data IH]; intros st; [reflexivity|].
  cbn [fold_left]. rewrite IH. apply load_item_locale.
Qed.

(** Replacing the catalog of a registered code by one for the same locale
    keeps the registry consistent. *)
Lemma registry_replace_catalog s l c c' :
  registry_consistent s ->
  catalogs s !! l = Some c ->
  cat_locale c' = cat_locale c ->
  registry_consistent
    {| default_locale := default_locale s; current_locale := current_locale s;
       locales := locales s; catalogs := <[l := c']> (catalogs s);
       formatters := formatters s; _fallback_chain := _fallback_chain s |}.
Proof.
  intros (Hc & Hf & Hcl & Hfl) E Hloc. unfold registry_consistent; cbn.
  rewrite dom_insert_L.
  assert (Hl : {[ l ]} ∪ dom (catalogs s) = dom (catalogs s)).
  { apply subseteq_union_1_L, singleton_subseteq_l, elem_of_dom. eauto. }
  rewrite Hl. repeat split; [exact Hc|exact Hf| |exact Hfl].
  intros k c0 [[<- <-]|[_ H]]%lookup_insert_Some; [|apply Hcl, H].
  rewrite Hloc. apply Hcl, E.
Qed.

Lemma reachable_registry d s :
  reachable d s ->
  registry_consistent s /\ default_locale s = d /\ is_Some (locales s !! "en").
Proof.
  induction 1 as [|s l _ (Hr & Hd & Hen)|s c _ (Hr & Hd & Hen)
                  |s l fs _ (Hr & Hd & Hen)|s l ms _ (Hr & Hd & Hen)
                  |s l data _ (Hr & Hd & Hen)|s l msg _ (Hr & Hd & Hen)].
  - split; [apply registry_init|]. split; [reflexivity|].
    unfold Translator_init, add_locale; cbn. rewrite lookup_insert_eq. eauto.
  - split; [apply (registry_step s (AddLocale l)), Hr|]. split; [exact Hd|].
    cbn. rewrite lookup_insert_is_Some. destruct (decide (code l = "en")); auto.
  - split; [apply (registry_step s (SetLocale c)), Hr|].
    unfold set_locale. destruct (locales s !! c); auto.
  - split; [apply (registry_step s (SetFallbackChain l fs)), Hr|]. auto.
  - split; [apply (registry_step s (LoadMessages l ms)), Hr|].
    unfold load_messages. destruct (catalogs s !! l); auto.
  - unfold Translator_load_json. destruct (catalogs s !! l) as [c|] eqn:E; cbn; auto.
    split; [|auto]. apply (registry_replace_catalog s l c); auto.
    apply load_fold_locale.
  - unfold load_plural. destruct (catalogs s !! l) as [c|] eqn:E; cbn; auto.
    split; [|auto]. apply (registry_replace_catalog s l c); auto.
Qed.

Lemma reachable_current d s :
  reachable d s ->
  current_locale s = d \/ is_Some (locales s !! current_locale s).
Proof.
  induction 1 as [|s l _ IH|s c _ IH|s l fs _ IH|s l ms _ IH|s l data _ IH
                  |s l msg _ IH].
  - left. reflexivity.
  - destruct IH as [IH|IH]; [left; exact IH|right]. cbn.
    rewrite lookup_insert_is_Some.
    destruct (decide (code l = current_locale s)); auto.
  - unfold set_locale. destruct (locales s !! c) eqn:E; cbn; [right; eauto|exact IH].
  - exact IH.
  - unfold load_messages. destruct (catalogs s !! l); exact IH.
  - unfold Translator_load_json. destruct (catalogs s !! l); exact IH.
  - unfold load_plural. destruct (catalogs s !! l); exact IH.
Qed.

Lemma reachable_codes d s :
  reachable d s -> forall k l, locales s !! k = Some l -> code l = k.
Proof.
  induction 1 as [|s l0 _ IH|s c _ IH|s l0 fs _ IH|s l0 ms _ IH|s l0 data _ IH
                  |s l0 msg _ IH]; intros k l.
  - unfold Translator_init, add_locale; cbn.
    intros [[<- <-]|[_ H]]%lookup_insert_Some; [reflexivity|].
    rewrite lookup_empty in H. discriminate.
  - cbn. intros [[<- <-]|[_ H]]%lookup_insert_Some; [reflexivity|apply IH, H].
  - unfold set_locale. destruct (locales s !! c); apply IH.
  - apply IH.
  - unfold load_messages. destruct (catalogs s !! l0); apply IH.
  - unfold Translator_load_json. destruct (catalogs s !! l0); apply IH.
  - unfold load_plural. destruct (catalogs s !! l0); apply IH.
Qed.

(** X6: in every state of a translator the current locale is the one given
    at construction or a registered one ([set_locale] moves it to registered
    locales only, and no locale is ever removed); the default locale is the
    one given at construction; every locale is registered under its own
    code; the locales, the catalogs and the formatters are kept for the same
    codes; and [en] is registered. *)
Theorem translator_state_invariant (d : string) (self : Translator) :
  reachable d self ->
  (current_locale self = d \/ is_Some (locales self !! current_locale self))
  /\ default_locale self = d
  /\ (forall k l, locales self !! k = Some l -> code l = k)
  /\ dom (catalogs self) = dom (locales self)
  /\ dom (formatters self) = dom (locales self)
  /\ is_Some (locales self !! "en").
Proof.
  intros Hr. pose proof (reachable_registry d self Hr) as ((Hc & Hf & _) & Hd & Hen).
  split; [apply (reachable_current d), Hr|]. split; [exact Hd|].
  split; [apply (reachable_codes d), Hr|]. auto.
Qed.

Lemma translator_state_invariant_witness :
  current_locale (set_locale example_translator "de").1 = "de"
  /\ is_Some (locales (set_locale example_translator "de").1 !! "de")
  /\ current_locale (set_locale example_translator "it").1 = "en"
  /\ dom (catalogs example_translator) = dom (locales example_translator).
Proof.
  pose proof (translator_state_invariant "en" (set_locale example_translator "de").1
                (reach_set_locale _ _ _
                   (run_reachable "en" _ _ (reach_init "en"))))
    as ([H|H] & _ & _ & _ & _ & _); [vm_compute in H; discriminate|].
  pose proof (translator_state_invariant "en" example_translator
                (run_reachable "en" _ _ (reach_init "en")))
    as (_ & _ & _ & Hd & _ & _).
  split; [reflexivity|]. split; [exact H|]. split; [reflexivity|exact Hd].
Defined.

Lemma formatter_for_registered self loc :
  is_Some (formatters self !! default_locale self) ->
  exists f, formatter_for self loc = Ok f.
Proof.
  intros [f0 H0]. unfold formatter_for.
  destruct (formatters self !! loc) as [f|]; [eauto|]. rewrite H0. eauto.
Qed.

Lemma reachable_en_formatter self :
  reachable "en" self -> is_Some (formatters self !! "en").
Proof.
  intros Hr. pose proof (reachable_registry "en" self Hr) as ((_ & Hf & _) & _ & Hen).
  apply elem_of_dom. rewrite <- Hf. apply elem_of_dom, Hen.
Qed.

(** X7: a translator constructed with the default locale [en] never fails
    to find a formatter, in whatever state it is, and a translation without
    values never raises: it is the text of the message found, or the key
    itself when no message is found. *)
Theorem t_without_values `{PyRuntime} (self : Translator) :
  reachable "en" self ->
  (forall loc, exists f, formatter_for self loc = Ok f)
  /\ (forall key locale context,
        t self key locale context ∅
        = Ok (match _find_message self key
                      (str_or locale (current_locale self)) context with
              | Some m => value m
              | None => key
              end)).
Proof.
  intros Hr.
  pose proof (reachable_registry "en" self Hr) as (_ & Hd & _).
  assert (Hfor : forall loc, exists f, formatter_for self loc = Ok f).
  { intros loc. apply formatter_for_registered. rewrite Hd.
    apply reachable_en_formatter, Hr. }
  split; [exact Hfor|].
  intros key locale context. unfold t.
  destruct (_find_message _ key _ context) as [m|]; [|reflexivity].
  destruct (Hfor (str_or locale (current_locale self))) as [f ->].
  cbn [mbind result_bind]. apply format_empty.
Qed.

Lemma t_without_values_witness :
  t example_translator "hello" (Some "zz") "" ∅ = Ok "Hello {name}"
  /\ t example_translator "nothing" None "" ∅ = Ok "nothing".
Proof.
  destruct (t_without_values example_translator
              (run_reachable "en" _ _ (reach_init "en"))) as [_ Ht].
  rewrite !Ht. split; vm_compute; reflexivity.
Defined.







(** ** Placeholders with a format spec *)

(** [{name:spec}] at the start of a text is matched, with [name] as group 1
    and [spec] as group 2. *)
Lemma placeholder_match_spec `{PyRuntime} name spec rest :
  is_name name = true ->
  truthy spec = true ->
  all_chars (fun c => negb (Ascii.eqb c "}")) spec = true ->
  re_match_at PLACEHOLDER_PATTERN ("{" +:+ name +:+ ":" +:+ spec +:+ "}" +:+ rest)
  = Some {| whole := "{" +:+ name +:+ ":" +:+ spec +:+ "}";
            groups := <[2%nat := spec]> {[ 1%nat := name ]};
            after := rest |}.
Proof.
  unfold is_name, truthy. intros [Hne Hall]%andb_true_iff Hsne Hsall.
  apply negb_true_iff, String.eqb_neq in Hne.
  apply negb_true_iff, String.eqb_neq in Hsne.
  unfold re_match_at, PLACEHOLDER_PATTERN.
  rewrite re_match_seq_char. rewrite sapp_cons, sapp_nil_l.
  rewrite Ascii.eqb_refl. cbn [re_match].
  erewrite (plus_match_run word_len is_word);
    [reflexivity|apply word_len_ascii|exact Hne|exact Hall| |].
  - rewrite sapp_cons. reflexivity.
  - rewrite sapp_cons, sapp_nil_l. cbn -[consumed String.append plus_match].
    erewrite (plus_match_run not_brace_len);
      [reflexivity|apply not_brace_len_other|exact Hsne|exact Hsall| |].
    + rewrite sapp_cons. reflexivity.
    + rewrite sapp_cons, sapp_nil_l. cbn -[consumed String.append].
      rewrite !consumed_app.
      replace (String "{" (name +:+ String ":" (spec +:+ String "}" rest)))
        with (("{" +:+ name +:+ ":" +:+ spec +:+ "}") +:+ rest)
        by (sapp_norm; reflexivity).
      rewrite consumed_app. reflexivity.
Qed.

Lemma re_sub_placeholder_spec `{PyRuntime} repl name spec rest :
  is_name name = true ->
  truthy spec = true ->
  all_chars (fun c => negb (Ascii.eqb c "}")) spec = true ->
  re_sub PLACEHOLDER_PATTERN repl ("{" +:+ name +:+ ":" +:+ spec +:+ "}" +:+ rest)
  = (a ← repl {| whole := "{" +:+ name +:+ ":" +:+ spec +:+ "}";
                 groups := <[2%nat := spec]> {[ 1%nat := name ]};
                 after := rest |};
     b ← re_sub PLACEHOLDER_PATTERN repl rest;
     Ok (a +:+ b)).
Proof.
  intros Hname Hsne Hsall. unfold re_sub.
  pose proof (placeholder_match_spec name spec rest Hname Hsne Hsall) as Hm.
  remember ("{" +:+ name +:+ ":" +:+ spec +:+ "}" +:+ rest) as s eqn:Hs.
  assert (Hs' : s = String "{" ((name +:+ ":" +:+ spec +:+ "}") +:+ rest))
    by (subst s; sapp_norm; reflexivity).
  rewrite Hs' in Hm |- *. cbn [re_sub_from]. rewrite Hm. cbn [whole].
  replace (String.length ("{" +:+ name +:+ ":" +:+ spec +:+ "}") - 1)%nat
    with (String.length (name +:+ ":" +:+ spec +:+ "}")).
  - rewrite re_sub_from_skip. reflexivity.
  - rewrite (sapp_cons "{" "" _), sapp_nil_l. simpl. lia.
Qed.

Lemma format_replace_spec `{PyRuntime} self kwargs name spec v w a :
  kwargs !! name = Some v ->
  truthy spec = true ->
  format_replace self kwargs
    {| whole := w; groups := <[2%nat := spec]> {[ 1%nat := name ]}; after := a |}
  = _apply_format self v spec.
Proof.
  intros Hv Hs. unfold format_replace, group. cbn [groups whole].
  rewrite lookup_insert_ne by discriminate. rewrite lookup_singleton_eq.
  cbn [mbind option_bind]. rewrite Hv, lookup_insert_eq, Hs. reflexivity.
Qed.

(** ** Interpolation *)

Lemma bound_value_name kwargs name w a :
  bound_value kwargs {| whole := w; groups := {[ 1%nat := name ]}; after := a |}
  = kwargs !! name.
Proof. unfold bound_value, group. cbn [groups]. rewrite lookup_singleton_eq. reflexivity. Qed.

Lemma bound_value_spec kwargs name spec w a :
  bound_value kwargs
    {| whole := w; groups := <[2%nat := spec]> {[ 1%nat := name ]}; after := a |}
  = kwargs !! name.
Proof.
  unfold bound_value, group. cbn [groups].
  rewrite lookup_insert_ne by discriminate. rewrite lookup_singleton_eq. reflexivity.
Qed.

(** C10: interpolation is one pass over the template.  For keyword values
    the output is built from the segments of the template alone, each match
    being replaced by what the replacement function returns for it.  In
    particular, behind a literal prefix, a bound placeholder [{name}] is
    replaced by [str] of its value, whatever that string contains, and the
    scan resumes in the template behind the placeholder: the inserted text
    is not scanned. *)
Theorem format_single_pass `{PyRuntime} (self : MessageFormatter) :
  (forall template kwargs,
      free_of format_params kwargs ->
      format self template kwargs
      = render (format_replace self kwargs) (segments template))
  /\ (forall pre name rest kwargs v,
        free_of format_params kwargs ->
        all_chars (fun c => negb (Ascii.eqb c "{")) pre = true ->
        is_name name = true ->
        kwargs !! name = Some v ->
        format self (pre +:+ "{" +:+ name +:+ "}" +:+ rest) kwargs
        = (a ← py_str v; b ← format self rest kwargs; Ok (pre +:+ a +:+ b))).
Proof.
  split; [intros; apply format_render; assumption|].
  intros pre name rest kwargs v Hf Hpre Hname Hv. unfold format.
  rewrite (keyword_clash_free _ _ Hf).
  rewrite re_sub_literal_prefix by exact Hpre.
  rewrite re_sub_placeholder by exact Hname.
  rewrite (format_replace_name self kwargs name v) by exact Hv.
  destruct (py_str v); cbn [mbind result_bind]; try reflexivity.
  destruct (re_sub PLACEHOLDER_PATTERN (format_replace self kwargs) rest);
    reflexivity.
Qed.

Lemma format_single_pass_witness :
  format en_formatter ("x=" +:+ "{" +:+ "a" +:+ "}" +:+ " {b}")
    {[ "a" := VStr "{b}"; "b" := VStr "B" ]}
  = Ok "x={b} B".
Proof.
  rewrite (proj2 (format_single_pass _) "x=" "a" " {b}" _ (VStr "{b}"));
    [vm_compute; reflexivity|repeat constructor|reflexivity|reflexivity
    |vm_compute; reflexivity].
Defined.

(** The output of a pass, segment by segment. *)
Lemma render_pieces `{PyRuntime} self kwargs : forall segs out,
  render (format_replace self kwargs) segs = Ok out ->
  exists pieces, Forall2 (piece_of self kwargs) segs pieces /\ out = join pieces.
Proof.
  induction segs as [|g segs IH]; intros out; cbn [render].
  - intros [= <-]. exists []. split; [constructor|reflexivity].
  - destruct g as [c|m].
    + destruct (render _ segs) as [b| |] eqn:E; cbn [mbind result_bind];
        try discriminate.
      intros [= <-]. destruct (IH b eq_refl) as (ps & Hps & ->).
      exists (String c "" :: ps). split; [|reflexivity].
      constructor; [reflexivity|exact Hps].
    + destruct (format_replace self kwargs m) as [a| |] eqn:Ea;
        cbn [mbind result_bind]; try discriminate.
      destruct (render _ segs) as [b| |] eqn:E; cbn [mbind result_bind];
        try discriminate.
      intros [= <-]. destruct (IH b eq_refl) as (ps & Hps & ->).
      exists (a :: ps). split; [|reflexivity]. constructor; [|exact Hps].
      unfold piece_of. destruct (bound_value kwargs m) eqn:Eb; [exact Ea|].
      rewrite format_replace_unbound in Ea by exact Eb. congruence.
Qed.

(** An error of a pass is the error of the replacement of a bound
    placeholder. *)
Lemma render_raises `{PyRuntime} self kwargs e : forall segs,
  render (format_replace self kwargs) segs = Raise e ->
  exists m, In (Hole m) segs /\ is_Some (bound_value kwargs m)
            /\ format_replace self kwargs m = Raise e.
Proof.
  induction segs as [|g segs IH]; cbn [render]; [discriminate|].
  assert (Hrest : render (format_replace self kwargs) segs = Raise e ->
                  exists m, In (Hole m) (g :: segs) /\ is_Some (bound_value kwargs m)
                            /\ format_replace self kwargs m = Raise e).
  { intros Hr. destruct (IH Hr) as (m & Hin & Hm). exists m. split; [right; exact Hin|exact Hm]. }
  destruct g as [c|m].
  - destruct (render _ segs) as [b| |]; cbn [mbind result_bind]; try discriminate.
    intros Hr. apply Hrest, Hr.
  - destruct (format_replace self kwargs m) as [a| |] eqn:Ea; cbn [mbind result_bind];
      try discriminate.
    + destruct (render _ segs) as [b| |]; cbn [mbind result_bind]; try discriminate.
      intros Hr. apply Hrest, Hr.
    + intros [= <-]. exists m. split; [left; reflexivity|]. split; [|exact Ea].
      destruct (bound_value kwargs m) eqn:Eb; [eauto|].
      rewrite format_replace_unbound in Ea by exact Eb. discriminate.
Qed.

(** An unbound placeholder behind a literal prefix is copied and the scan
    goes on behind it. *)
Lemma format_unbound_name `{PyRuntime} self pre name rest kwargs :
  all_chars (fun c => negb (Ascii.eqb c "{")) pre = true ->
  is_name name = true ->
  kwargs !! name = None ->
  format self (pre +:+ "{" +:+ name +:+ "}" +:+ rest) kwargs
  = (b ← format self rest kwargs; Ok (pre +:+ "{" +:+ name +:+ "}" +:+ b)).
Proof.
  intros Hpre Hname Hv. unfold format.
  destruct (keyword_clash format_params kwargs); [reflexivity|].
  rewrite re_sub_literal_prefix by exact Hpre.
  rewrite re_sub_placeholder by exact Hname.
  rewrite format_replace_unbound by (rewrite bound_value_name; exact Hv).
  cbn [mbind result_bind whole].
  destruct (re_sub PLACEHOLDER_PATTERN (format_replace self kwargs) rest);
    cbn [mbind result_bind]; try reflexivity.
  rewrite !sapp_assoc. reflexivity.
Qed.

Lemma format_unbound_spec `{PyRuntime} self pre name spec rest kwargs :
  all_chars (fun c => negb (Ascii.eqb c "{")) pre = true ->
  is_name name = true ->
  truthy spec = true ->
  all_chars (fun c => negb (Ascii.eqb c "}")) spec = true ->
  kwargs !! name = None ->
  format self (pre +:+ "{" +:+ name +:+ ":" +:+ spec +:+ "}" +:+ rest) kwargs
  = (b ← format self rest kwargs;
     Ok (pre +:+ "{" +:+ name +:+ ":" +:+ spec +:+ "}" +:+ b)).
Proof.
  intros Hpre Hname Hsne Hsall Hv. unfold format.
  destruct (keyword_clash format_params kwargs); [reflexivity|].
  rewrite re_sub_literal_prefix by exact Hpre.
  rewrite re_sub_placeholder_spec by assumption.
  rewrite format_replace_unbound by (rewrite bound_value_spec; exact Hv).
  cbn [mbind result_bind whole].
  destruct (re_sub PLACEHOLDER_PATTERN (format_replace self kwargs) rest);
    cbn [mbind result_bind]; try reflexivity.
  rewrite !sapp_assoc. reflexivity.
Qed.

(** C7, as the code has it: whenever [format] returns, every placeholder
    whose name is not in the mapping stands in the output as it is written
    in the template, in its place between the literal text and the
    replacements of the bound placeholders.  Behind a literal prefix an
    unbound [{name}] or [{name:spec}] is copied and the scan goes on behind
    it, so the rest of the template alone decides what follows and whether
    an error is raised.  An unbound placeholder never raises: an error of
    [format] on keyword values is the error of the replacement of a bound
    placeholder.  A template none of whose placeholders is bound, and so any
    template under the empty mapping, is returned unchanged. *)
Theorem format_absent_placeholder_unchanged `{PyRuntime} (self : MessageFormatter) :
  (forall template kwargs out,
      format self template kwargs = Ok out ->
      text_of (segments template) = template
      /\ exists pieces,
           Forall2 (piece_of self kwargs) (segments template) pieces
           /\ out = join pieces)
  /\ (forall pre name rest kwargs,
        all_chars (fun c => negb (Ascii.eqb c "{")) pre = true ->
        is_name name = true ->
        kwargs !! name = None ->
        format self (pre +:+ "{" +:+ name +:+ "}" +:+ rest) kwargs
        = (b ← format self rest kwargs; Ok (pre +:+ "{" +:+ name +:+ "}" +:+ b)))
  /\ (forall pre name spec rest kwargs,
        all_chars (fun c => negb (Ascii.eqb c "{")) pre = true ->
        is_name name = true ->
        truthy spec = true ->
        all_chars (fun c => negb (Ascii.eqb c "}")) spec = true ->
        kwargs !! name = None ->
        format self (pre +:+ "{" +:+ name +:+ ":" +:+ spec +:+ "}" +:+ rest) kwargs
        = (b ← format self rest kwargs;
           Ok (pre +:+ "{" +:+ name +:+ ":" +:+ spec +:+ "}" +:+ b)))
  /\ (forall template kwargs e,
        free_of format_params kwargs ->
        format self template kwargs = Raise e ->
        exists m, In (Hole m) (segments template)
                  /\ is_Some (bound_value kwargs m)
                  /\ format_replace self kwargs m = Raise e)
  /\ (forall template kwargs,
        free_of format_params kwargs ->
        Forall (fun g => match g with
                         | Hole m => bound_value kwargs m = None
                         | Lit _ => True
                         end) (segments template) ->
        format self template kwargs = Ok template)
  /\ (forall template, format self template ∅ = Ok template).
Proof.
  split.
  { intros template kwargs out Hout. split; [apply segments_text|].
    unfold format in Hout.
    destruct (keyword_clash format_params kwargs); [discriminate|].
    unfold re_sub in Hout. rewrite re_sub_from_render in Hout.
    apply render_pieces, Hout. }
  split; [intros; apply format_unbound_name; assumption|].
  split; [intros; apply format_unbound_spec; assumption|].
  split.
  { intros template kwargs e Hf He. rewrite format_render in He by exact Hf.
    apply render_raises, He. }
  split; [intros; apply format_unbound; assumption|].
  apply format_empty.
Qed.

Lemma format_absent_placeholder_unchanged_witness :
  format en_formatter ("Dear " +:+ "{" +:+ "name" +:+ "}" +:+ ", you owe {sum:currency}.")
    {[ "sum" := VNum (NInt 5) ]}
  = Ok "Dear {name}, you owe $5."
  /\ format en_formatter "Dear {name}, you owe {sum:currency}." {[ "nom" := VStr "x" ]}
     = Ok "Dear {name}, you owe {sum:currency}.".
Proof.
  destruct (format_absent_placeholder_unchanged en_formatter)
    as (_ & Hname & _ & _ & Hnone & _).
  split.
  - rewrite (Hname "Dear " "name" ", you owe {sum:currency}.");
      [vm_compute; reflexivity|reflexivity|reflexivity|vm_compute; reflexivity].
  - apply Hnone; [repeat constructor|]. vm_compute. repeat constructor.
Defined.

(** C7 fails as stated: with a bound placeholder whose formatter raises
    there is no output, so the unbound placeholder of the same template
    does not appear in it; and a mapping that holds the name [template]
    cannot be passed at all. *)
Lemma format_absent_placeholder_counterexample :
  format en_formatter "{y} {x:number}" {[ "x" := VStr "abc" ]} = Raise ValueError
  /\ ({[ "x" := VStr "abc" ]} : gmap string pyvalue) !! "y" = None
  /\ format en_formatter "{y}" {[ "template" := VStr "t" ]} = Raise TypeError
  /\ ({[ "template" := VStr "t" ]} : gmap string pyvalue) !! "y" = None.
Proof. repeat split; vm_compute; reflexivity. Qed.

(** ** When [format] returns a string *)

Lemma py_str_printable `{PyRuntime} v : printable v = true -> exists s, py_str v = Ok s.
Proof.
  destruct v as [| |[z|f]| |]; cbn [printable py_str]; eauto.
  unfold int_str. intros ->. eauto.
Qed.

Lemma format_number_returns `{PyRuntime} self n decimals :
  printable (VNum n) = true ->
  (0 <= decimals <= max_precision)%Z \/ (exists z, n = NInt z) ->
  exists s, format_number self (VNum n) decimals = Ok s.
Proof.
  intros Hp Hd. destruct n as [z|f].
  - rewrite format_number_int. cbn [printable] in Hp. rewrite Hp. eauto.
  - destruct Hd as [[H0 H1]|[z [=]]]. unfold format_number, format_float_f.
    destruct (Z.ltb_spec decimals 0); [lia|].
    destruct (Z.ltb_spec max_precision decimals); [lia|].
    cbn [orb]. destruct f; cbn [mbind result_bind]; eauto.
Qed.

Lemma printable_abs n : printable (VNum (mag_number (py_abs n))) = printable (VNum n).
Proof. destruct n as [z|[neg m e|neg|]]; try reflexivity. apply int_digits_ok_abs. Qed.

Lemma format_currency_returns `{PyRuntime} self n symbol :
  printable (VNum n) = true ->
  currency_format (fmt_locale self) = "{symbol}{amount}" ->
  exists s, format_currency self (VNum n) symbol = Ok s.
Proof.
  intros Hp Hl. unfold format_currency, format_decimal.
  cbn [value_abs mbind result_bind].
  destruct (format_number_returns self (mag_number (py_abs n)) 2) as [amt ->].
  { rewrite printable_abs. exact Hp. }
  { left. unfold max_precision. lia. }
  cbn [mbind result_bind]. rewrite Hl, str_format_symbol_amount.
  cbn [mbind result_bind].
  destruct n as [z|[neg m e|neg|]]; cbn [value_negative mbind result_bind]; eauto.
Qed.

Lemma apply_format_accepted `{PyRuntime} self v spec :
  accepted self v spec = true -> exists s, _apply_format self v spec = Ok s.
Proof.
  unfold accepted, _apply_format, str_in. cbn [existsb].
  destruct (String.eqb spec "number").
  { destruct v; try discriminate. cbn [is_number]. intros Hp.
    apply format_number_returns; [exact Hp|]. left. unfold max_precision. lia. }
  destruct (String.eqb spec "currency").
  { destruct v; try discriminate. cbn [is_number].
    intros [Hp Hl%String.eqb_eq]%andb_true_iff.
    apply format_currency_returns; assumption. }
  destruct (String.eqb spec "date"); [discriminate|].
  destruct (String.eqb spec "time"); [discriminate|].
  destruct (String.eqb spec "datetime"); [discriminate|].
  cbn [orb].
  destruct (String.prefix "decimal:" spec); [|apply py_str_printable].
  destruct (second_field spec) as [field| |]; cbn [mbind result_bind];
    try discriminate.
  destruct (py_int field) as [places| |]; cbn [mbind result_bind]; try discriminate.
  destruct v as [| |[z|f]| |]; try discriminate; unfold format_decimal.
  - intros Hp. apply format_number_returns; [exact Hp|]. right. eauto.
  - intros [H0 H1]%andb_true_iff. apply format_number_returns; [reflexivity|]. left.
    apply Z.leb_le in H0. apply Z.leb_le in H1. lia.
Qed.

Lemma substitute_fits `{PyRuntime} self v spec :
  fits self v spec = true -> exists s, substitute self v spec = Ok s.
Proof.
  destruct spec as [spec|]; [apply apply_format_accepted|apply py_str_printable].
Qed.

Lemma format_replace_substitute `{PyRuntime} self kwargs m v spec :
  substitution kwargs (Hole m) = Some (v, spec) ->
  format_replace self kwargs m = substitute self v spec.
Proof.
  unfold substitution, format_replace, bound_value.
  destruct (group m 1 ≫= _) as [v'|]; [|discriminate]. intros [= -> <-].
  change (group m 2) with (groups m !! 2%nat).
  destruct (groups m !! 2%nat) as [sp|]; [|reflexivity].
  destruct (truthy sp); reflexivity.
Qed.

Lemma render_returns `{PyRuntime} self kwargs : forall segs,
  Forall (fun g => match substitution kwargs g with
                   | Some (v, spec) => exists s, substitute self v spec = Ok s
                   | None => True
                   end) segs ->
  exists out, render (format_replace self kwargs) segs = Ok out.
Proof.
  induction 1 as [|g segs Hg _ [out IH]]; [exists ""; reflexivity|].
  destruct g as [c|m]; cbn [render].
  - rewrite IH. cbn [mbind result_bind]. eauto.
  - assert (Hr : exists a, format_replace self kwargs m = Ok a).
    { destruct (substitution kwargs (Hole m)) as [[v spec]|] eqn:E.
      - rewrite (format_replace_substitute self kwargs m v spec E). exact Hg.
      - rewrite format_replace_unbound; [eauto|].
        unfold substitution in E. destruct (bound_value kwargs m); [discriminate|].
        reflexivity. }
    destruct Hr as [a ->]. cbn [mbind result_bind]. rewrite IH.
    cbn [mbind result_bind]. eauto.
Qed.

Lemma render_plain `{PyRuntime} self kwargs : forall segs,
  Forall (fun g => uses_formatter kwargs g = false) segs ->
  render (format_replace self kwargs) segs = render (plain_replace kwargs) segs.
Proof.
  induction 1 as [|g segs Hg _ IH]; [reflexivity|].
  destruct g as [c|m]; cbn [render]; rewrite IH; [reflexivity|].
  rewrite format_replace_plain by exact Hg. reflexivity.
Qed.

(** C4, as the code has it: [format] has no error handling, so it returns
    a string as far as the conversions and formatters it calls do.  A spec
    that names no formatter is not an error of its own: the value is
    written with [str], which writes every value but an int of more digits
    than the interpreter converts.  [number] returns a string for every
    float and every int that can be written; so does [currency] under the
    default layout; so does [decimal:N] for such an int when [N] is an
    integer literal, and for a float when [N] is moreover a precision;
    [date], [time] and [datetime] return what [strftime] returns for a date
    or a datetime.  For keyword values, [format] returns a string for every
    template in which each bound placeholder has a value that fits its spec
    (or [str], without a spec), or one for which the call returns; and when
    no bound placeholder names a formatter, the bound ones are replaced by
    [str] of their values and the unbound ones are kept. *)
Theorem format_total_on_accepted_values `{PyRuntime} (self : MessageFormatter) :
  (forall v spec,
      recognized_spec spec = false -> _apply_format self v spec = py_str v)
  /\ (forall v, printable v = true -> exists s, py_str v = Ok s)
  /\ (forall v spec,
        accepted self v spec = true -> exists s, _apply_format self v spec = Ok s)
  /\ (forall n,
        printable (VNum n) = true ->
        exists s, _apply_format self (VNum n) "number" = Ok s)
  /\ (forall d t,
        let l := fmt_locale self in
        _apply_format self (VDate d) "date" = strftime d midnight (date_format l)
        /\ _apply_format self (VDateTime d t) "date"
           = strftime d midnight (date_format l)
        /\ _apply_format self (VDate d) "time" = strftime d midnight (time_format l)
        /\ _apply_format self (VDateTime d t) "time" = strftime d t (time_format l)
        /\ _apply_format self (VDate d) "datetime"
           = strftime d midnight (datetime_format l)
        /\ _apply_format self (VDateTime d t) "datetime"
           = strftime d t (datetime_format l))
  /\ (forall template kwargs,
        free_of format_params kwargs ->
        Forall (fun g => match substitution kwargs g with
                         | Some (v, spec) =>
                             fits self v spec = true
                             \/ exists s, substitute self v spec = Ok s
                         | None => True
                         end) (segments template) ->
        exists out, format self template kwargs = Ok out)
  /\ (forall template kwargs,
        free_of format_params kwargs ->
        Forall (fun g => uses_formatter kwargs g = false) (segments template) ->
        format self template kwargs
        = render (plain_replace kwargs) (segments template)).
Proof.
  split; [intros; apply apply_format_unrecognized; assumption|].
  split; [intros; apply py_str_printable; assumption|].
  split; [intros; apply apply_format_accepted; assumption|].
  split; [intros n Hn; apply apply_format_accepted; exact Hn|].
  split; [intros d t; cbn zeta; repeat split|].
  split.
  - intros template kwargs Hf Hall. rewrite format_render by exact Hf.
    apply render_returns. eapply Forall_impl; [exact Hall|].
    intros g. cbn beta. destruct (substitution kwargs g) as [[v spec]|]; [|trivial].
    intros [Ha|Hs]; [apply substitute_fits, Ha|exact Hs].
  - intros template kwargs Hf Hall. rewrite format_render by exact Hf.
    apply render_plain, Hall.
Qed.

Lemma format_total_on_accepted_values_witness :
  (exists out,
     format en_formatter "{x:number}, {y:decimal:2}; {z:odd} {w}"
       {[ "x" := VNum (NInt 1234); "y" := VNum (NFloat f_1234_5); "z" := VStr "s" ]}
     = Ok out)
  /\ format en_formatter "Hi {who:loud}, {n} of {m}"
       {[ "who" := VStr "Bob"; "n" := VNum (NInt 3) ]}
     = Ok "Hi Bob, 3 of {m}"
  /\ _apply_format en_formatter (VNum (NInt (-7))) "percent" = Ok "-7".
Proof.
  destruct (format_total_on_accepted_values en_formatter)
    as (Hplain & _ & _ & _ & _ & Hfit & Hnone).
  split; [|split].
  - apply Hfit; [repeat constructor|].
    match goal with
    | |- Forall _ ?x => let y := eval vm_compute in x in change x with y
    end.
    repeat (apply List.Forall_cons; [first [exact I | left; vm_compute; reflexivity]|]).
    apply List.Forall_nil.
  - rewrite Hnone; [vm_compute; reflexivity|repeat constructor|].
    vm_compute. repeat constructor.
  - rewrite Hplain; reflexivity.
Defined.

(** Whatever the locale, a formatter raises on a value of the wrong type,
    and a spec that starts with [decimal:] without a number behind it
    raises instead of falling back to the string of the value. *)
Lemma format_raises `{PyRuntime} (self : MessageFormatter) :
  format self "{x:number}" {[ "x" := VStr "abc" ]} = Raise ValueError
  /\ format self "{x:date}" {[ "x" := VNum (NInt 5) ]} = Raise AttributeError
  /\ format self "{x:decimal:abc}" {[ "x" := VNum (NFloat (FFin false 3 (-1))) ]}
     = Raise ValueError
  /\ _apply_format self (VNum (NInt 5)) "decimal:abc" = Raise ValueError.
Proof. repeat split; vm_compute; reflexivity. Qed.

(** C4 fails as stated: [format] raises for a string under [number], for a
    number under [date], for the spec [decimal:abc], and for a mapping that
    holds the name [template]. *)
Lemma format_raises_counterexample :
  format en_formatter "{x:number}" {[ "x" := VStr "abc" ]} = Raise ValueError
  /\ format en_formatter "{x:date}" {[ "x" := VNum (NInt 5) ]} = Raise AttributeError
  /\ format en_formatter "{x:decimal:abc}"
       {[ "x" := VNum (NFloat (FFin false 3 (-1))) ]} = Raise ValueError
  /\ recognized_spec "decimal:abc" = true
  /\ py_int "abc" = Raise ValueError
  /\ _apply_format en_formatter (VNum (NInt 5)) "decimal:abc" = Raise ValueError
  /\ format en_formatter "{x}" {[ "x" := VStr "a"; "template" := VStr "t" ]}
     = Raise TypeError.
Proof. repeat split; vm_compute; reflexivity. Qed.

(** X11: a bound placeholder [{name:spec}] behind a literal prefix is
    replaced by what [_apply_format] returns for its value and its spec, and
    the scan resumes behind the closing brace; if [_apply_format] raises,
    [format] raises the same error whatever follows in the template. *)
Theorem format_placeholder_with_spec `{PyRuntime} (self : MessageFormatter)
    (pre name spec rest : string) (kwargs : gmap string pyvalue) (v : pyvalue) :
  free_of format_params kwargs ->
  all_chars (fun c => negb (Ascii.eqb c "{")) pre = true ->
  is_name name = true ->
  truthy spec = true ->
  all_chars (fun c => negb (Ascii.eqb c "}")) spec = true ->
  kwargs !! name = Some v ->
  format self (pre +:+ "{" +:+ name +:+ ":" +:+ spec +:+ "}" +:+ rest) kwargs
  = (a ← _apply_format self v spec;
     b ← format self rest kwargs;
     Ok (pre +:+ a +:+ b))
  /\ (forall e, _apply_format self v spec = Raise e ->
        format self (pre +:+ "{" +:+ name +:+ ":" +:+ spec +:+ "}" +:+ rest) kwargs
        = Raise e).
Proof.
  intros Hfree Hpre Hname Hsne Hsall Hv.
  assert (Hf : format self (pre +:+ "{" +:+ name +:+ ":" +:+ spec +:+ "}" +:+ rest)
                 kwargs
               = (a ← _apply_format self v spec;
                  b ← format self rest kwargs;
                  Ok (pre +:+ a +:+ b))).
  { unfold format. rewrite (keyword_clash_free _ _ Hfree).
    rewrite re_sub_literal_prefix by exact Hpre.
    rewrite re_sub_placeholder_spec by assumption.
    rewrite (format_replace_spec self kwargs name spec v) by assumption.
    destruct (_apply_format self v spec); cbn [mbind result_bind]; try reflexivity.
    destruct (re_sub PLACEHOLDER_PATTERN (format_replace self kwargs) rest);
      reflexivity. }
  split; [exact Hf|]. intros e He. rewrite Hf, He. reflexivity.
Qed.

Lemma format_placeholder_with_spec_witness :
  format {| fmt_locale := es |} ("Total: " +:+ "{" +:+ "amount" +:+ ":" +:+ "currency"
                                  +:+ "}" +:+ "!")
    {[ "amount" := VNum (NFloat f_1234_56) ]}
  = Ok "Total: €1.234,56!".
Proof.
  destruct (format_placeholder_with_spec {| fmt_locale := es |} "Total: " "amount"
              "currency" "!" {[ "amount" := VNum (NFloat f_1234_56) ]}
              (VNum (NFloat f_1234_56))) as [-> _];
    try (vm_compute; reflexivity).
  repeat constructor.
Defined.

(** ** The precision of a [decimal:] spec *)

Lemma digit_not_space c : is_digit c = true -> is_space c = false.
Proof.
  unfold is_digit, is_space. intros [H1 H2]%andb_true_iff.
  apply N.leb_le in H1. apply N.leb_le in H2.
  apply orb_false_iff. split.
  - apply andb_false_iff. right. apply N.leb_gt. lia.
  - apply N.eqb_neq. lia.
Qed.

Lemma rstrip_digits s : all_chars is_digit s = true -> rstrip s = s.
Proof.
  induction s as [|c s IH]; [reflexivity|]. simpl.
  intros [Hc Hs]%andb_true_iff. rewrite (IH Hs), (digit_not_space c Hc).
  destruct s; reflexivity.
Qed.

Lemma strip_digits s : all_chars is_digit s = true -> strip s = s.
Proof.
  intros Hs. unfold strip.
  assert (Hl : lstrip s = s).
  { destruct s as [|c s]; [reflexivity|]. simpl in Hs |- *.
    apply andb_true_iff in Hs as [Hc _]. rewrite (digit_not_space c Hc). reflexivity. }
  rewrite Hl. apply rstrip_digits, Hs.
Qed.

(** The test [is_digit] on a character that is written out. *)
Ltac digit_test :=
  lazymatch goal with
  | |- (if is_digit ?c then _ else _) = _ => change (is_digit c) with true; cbn iota
  end.

Lemma int_digits_acc : forall d acc,
  int_digits true (Npos acc) (NilEmpty.string_of_uint d)
  = Some (Npos (Pos.of_uint_acc d acc)).
Proof.
  induction d; intros acc; [reflexivity|..];
    cbn [NilEmpty.string_of_uint int_digits Pos.of_uint_acc];
    digit_test; rewrite <- IHd; f_equal; cbn; lia.
Qed.

Lemma int_digits_uint : forall d p,
  p = true \/ d <> Decimal.Nil ->
  int_digits p 0 (NilEmpty.string_of_uint d) = Some (Pos.of_uint d).
Proof.
  induction d; intros p Hp;
    try (cbn [NilEmpty.string_of_uint int_digits]; digit_test).
  - destruct Hp as [->|Hp]; [reflexivity|congruence].
  - apply IHd. left. reflexivity.
  - apply (int_digits_acc d 1).
  - apply (int_digits_acc d 2).
  - apply (int_digits_acc d 3).
  - apply (int_digits_acc d 4).
  - apply (int_digits_acc d 5).
  - apply (int_digits_acc d 6).
  - apply (int_digits_acc d 7).
  - apply (int_digits_acc d 8).
  - apply (int_digits_acc d 9).
Qed.

Lemma int_digits_digits n : int_digits false 0 (digits n) = Some n.
Proof.
  unfold digits, NilZero.string_of_uint.
  rewrite <- (DecimalN.Unsigned.of_to n) at 2. unfold N.of_uint.
  destruct (N.to_uint n) eqn:E; try reflexivity;
    rewrite <- E; apply int_digits_uint; right; rewrite E; discriminate.
Qed.

Lemma digit_is_ascii c : is_digit c = true -> is_ascii c = true.
Proof.
  unfold is_digit, is_ascii. intros [_ Hc]%andb_true_iff.
  apply N.leb_le in Hc. apply N.ltb_lt. lia.
Qed.

Lemma count_digits_all s : all_chars is_digit s = true -> count_digits s = String.length s.
Proof.
  induction s as [|c s IH]; [reflexivity|]. simpl.
  intros [-> Hs]%andb_true_iff. rewrite (IH Hs). reflexivity.
Qed.

(** [int] of a text that is made of decimal digits only. *)
Lemma py_int_unsigned s :
  s <> "" -> all_chars is_digit s = true ->
  py_int s = match int_digits false 0 s with
             | Some n =>
                 if (max_str_digits <? String.length s)%nat then Raise ValueError
                 else Ok (Z.of_N n)
             | None => Raise ValueError
             end.
Proof.
  intros Hne Hs. unfold py_int.
  rewrite (all_chars_impl _ _ s digit_is_ascii Hs). cbn [negb].
  rewrite (strip_digits s Hs), <- (count_digits_all s Hs).
  destruct s as [|c r]; [congruence|]. simpl in Hs.
  apply andb_true_iff in Hs as [Hc _].
  destruct c as [[] [] [] [] [] [] [] []]; try discriminate Hc; reflexivity.
Qed.

Lemma digits_nonempty n : digits n <> "".
Proof.
  unfold digits, NilZero.string_of_uint.
  destruct (N.to_uint n); discriminate.
Qed.

(** Reading back the decimal digits of a number gives the number, up to
    the number of digits [int] reads. *)
Lemma py_int_digits n :
  py_int (digits n)
  = if (max_str_digits <? String.length (digits n))%nat then Raise ValueError
    else Ok (Z.of_N n).
Proof.
  rewrite py_int_unsigned by (apply digits_nonempty || apply digits_all_digit).
  rewrite int_digits_digits. reflexivity.
Qed.

Lemma split_char_free sep : forall a,
  all_chars (fun c => negb (Ascii.eqb c sep)) a = true -> split_char sep a = [a].
Proof.
  induction a as [|c a IH]; [reflexivity|]. simpl.
  intros [Hc Ha]%andb_true_iff. apply negb_true_iff in Hc.
  rewrite Hc, (IH Ha). reflexivity.
Qed.

Lemma split_char_first sep b : forall a,
  all_chars (fun c => negb (Ascii.eqb c sep)) a = true ->
  split_char sep (a +:+ String sep b) = a :: split_char sep b.
Proof.
  induction a as [|c a IH].
  - intros _. rewrite sapp_nil_l. simpl. rewrite Ascii.eqb_refl. reflexivity.
  - intros Hall. simpl in Hall. apply andb_true_iff in Hall as [Hc Ha].
    apply negb_true_iff in Hc.
    rewrite sapp_cons. simpl. rewrite Hc, (IH Ha). reflexivity.
Qed.

Lemma second_field_decimal x :
  second_field ("decimal:" +:+ x)
  = match split_char ":" x with
    | a :: _ => Ok a
    | [] => Raise IndexError
    end.
Proof.
  unfold second_field.
  change ("decimal:" +:+ x) with ("decimal" +:+ String ":" x).
  rewrite split_char_first by reflexivity. reflexivity.
Qed.

(** A spec that starts with [decimal:] takes the decimal branch. *)
Lemma apply_format_decimal_branch `{PyRuntime} self v x :
  _apply_format self v ("decimal:" +:+ x)
  = (field ← second_field ("decimal:" +:+ x);
     places ← py_int field;
     format_decimal self v places).
Proof.
  unfold _apply_format. rewrite prefix_app_self.
  change ("decimal:" +:+ x)
    with (String "d" (String "e" (String "c" ("imal:" +:+ x)))).
  reflexivity.
Qed.

Lemma apply_format_decimal_digits `{PyRuntime} self v n :
  _apply_format self v ("decimal:" +:+ digits n)
  = (places ← py_int (digits n); format_decimal self v places).
Proof.
  rewrite apply_format_decimal_branch, second_field_decimal.
  rewrite split_char_free; [reflexivity|].
  eapply all_chars_impl; [|apply digits_all_digit].
  intros c. apply digit_not. reflexivity.
Qed.

(** X12: in a spec [decimal:N] the precision is the text between the first
    and the second colon, read as an integer: with the decimal digits of a
    number behind [decimal:], at most 4300 of them, the value goes to
    [format_decimal] with that number of places, and with more digits the
    conversion raises [ValueError]; what follows a second colon is not
    looked at; and with nothing behind [decimal:] the conversion raises
    [ValueError]. *)
Theorem apply_format_decimal_precision `{PyRuntime} (self : MessageFormatter)
    (v : pyvalue) :
  (forall n, (String.length (digits n) <= max_str_digits)%nat ->
             _apply_format self v ("decimal:" +:+ digits n)
             = format_decimal self v (Z.of_N n))
  /\ (forall n, (max_str_digits < String.length (digits n))%nat ->
                _apply_format self v ("decimal:" +:+ digits n) = Raise ValueError)
  /\ (forall a rest,
        all_chars (fun c => negb (Ascii.eqb c ":")) a = true ->
        _apply_format self v ("decimal:" +:+ a +:+ ":" +:+ rest)
        = _apply_format self v ("decimal:" +:+ a))
  /\ _apply_format self v "decimal:" = Raise ValueError.
Proof.
  split; [|split; [|split]].
  - intros n Hn. rewrite apply_format_decimal_digits, py_int_digits.
    apply Nat.ltb_ge in Hn. rewrite Hn. reflexivity.
  - intros n Hn. rewrite apply_format_decimal_digits, py_int_digits.
    apply Nat.ltb_lt in Hn. rewrite Hn. reflexivity.
  - intros a rest Ha. rewrite !apply_format_decimal_branch, !second_field_decimal.
    change (a +:+ ":" +:+ rest) with (a +:+ String ":" rest).
    rewrite split_char_first, split_char_free by exact Ha. reflexivity.
  - reflexivity.
Qed.

Lemma apply_format_decimal_precision_witness :
  _apply_format {| fmt_locale := es |} (VNum (NFloat f_1234_5)) "decimal:2:f"
  = Ok "1.234,50".
Proof.
  change "decimal:2:f" with ("decimal:" +:+ "2" +:+ ":" +:+ "f").
  rewrite (proj1 (proj2 (proj2 (apply_format_decimal_precision _ _))) "2" "f" eq_refl).
  change ("decimal:" +:+ "2") with ("decimal:" +:+ digits 2).
  rewrite (proj1 (apply_format_decimal_precision _ _) 2%N).
  - vm_compute. reflexivity.
  - apply Nat.leb_le. vm_compute. reflexivity.
Defined.

(** ** Values that are not finite numbers *)

(** X13: [format_number] on what is not a finite number.  A float with a
    negative number of decimals, or with more than 2**31 - 1, raises
    [ValueError], an infinity and a NaN included; with a number of decimals
    in between, an infinity or a NaN is written [inf], [-inf] or [nan]
    whatever the separators of the locale; a string raises [ValueError] and
    [None] raises [TypeError]; and [format_currency] raises [TypeError] for
    both, before it looks at the locale. *)
Theorem format_number_not_finite `{PyRuntime} (self : MessageFormatter) :
  (forall f decimals,
      (decimals < 0)%Z ->
      format_number self (VNum (NFloat f)) decimals = Raise ValueError)
  /\ (forall f decimals,
        (max_precision < decimals)%Z ->
        format_number self (VNum (NFloat f)) decimals = Raise ValueError)
  /\ (forall neg decimals,
        (0 <= decimals <= max_precision)%Z ->
        format_number self (VNum (NFloat (FInf neg))) decimals
        = Ok (if neg then "-inf" else "inf"))
  /\ (forall decimals,
        (0 <= decimals <= max_precision)%Z ->
        format_number self (VNum (NFloat FNaN)) decimals = Ok "nan")
  /\ (forall s decimals, format_number self (VStr s) decimals = Raise ValueError)
  /\ (forall decimals, format_number self VNone decimals = Raise TypeError)
  /\ (forall s symbol, format_currency self (VStr s) symbol = Raise TypeError)
  /\ (forall symbol, format_currency self VNone symbol = Raise TypeError).
Proof.
  split.
  { intros f decimals Hd. unfold format_number, format_float_f.
    destruct (Z.ltb_spec decimals 0); [reflexivity|lia]. }
  split; [intros f decimals; apply format_number_precision_too_big|].
  split.
  { intros neg decimals [Hd Hmax]. unfold format_number, format_float_f.
    destruct (Z.ltb_spec decimals 0); [lia|].
    destruct (Z.ltb_spec max_precision decimals); [lia|]. destruct neg; reflexivity. }
  split.
  { intros decimals [Hd Hmax]. unfold format_number, format_float_f.
    destruct (Z.ltb_spec decimals 0); [lia|].
    destruct (Z.ltb_spec max_precision decimals); [lia|]. reflexivity. }
  repeat split.
Qed.

Lemma format_number_not_finite_witness :
  format_number en_formatter (VNum (NFloat f_1234_5)) (-1) = Raise ValueError
  /\ format_number {| fmt_locale := es |} (VNum (NFloat (FInf true))) 2 = Ok "-inf"
  /\ format_number en_formatter (VNum (NFloat (FInf false))) 2147483648
     = Raise ValueError.
Proof.
  destruct (format_number_not_finite en_formatter) as (Hneg & Hbig & _).
  destruct (format_number_not_finite {| fmt_locale := es |}) as (_ & _ & Hinf & _).
  split; [apply Hneg; lia|].
  split; [apply (Hinf true); unfold max_precision; lia|].
  apply Hbig. unfold max_precision. lia.
Defined.

(** ** Values the template does not name *)

Lemma format_replace_insert_other `{PyRuntime} self kwargs name v m :
  group m 1 <> Some name ->
  format_replace self (<[name := v]> kwargs) m = format_replace self kwargs m.
Proof.
  intros Hne. unfold format_replace.
  destruct (group m 1) as [n|]; [|reflexivity]. cbn [mbind option_bind].
  rewrite lookup_insert_ne by congruence. reflexivity.
Qed.

(** X14: a value bound to a name that no placeholder of the template has
    changes nothing: the output, or the error, is the same with and without
    it.  (The name is one that can be passed to [format] as a keyword.) *)
Theorem format_ignores_unused_value `{PyRuntime} (self : MessageFormatter)
    (template name : string) (v : pyvalue) (kwargs : gmap string pyvalue) :
  free_of format_params (<[name := v]> kwargs) ->
  Forall (fun g => match g with
                   | Hole m => group m 1 <> Some name
                   | Lit _ => True
                   end) (segments template) ->
  format self template (<[name := v]> kwargs) = format self template kwargs.
Proof.
  intros Hf Hall.
  assert (Hf' : free_of format_params kwargs).
  { eapply Forall_impl; [exact Hf|]. intros n Hn. cbn in Hn.
    apply lookup_insert_None in Hn as [Hn _]. exact Hn. }
  rewrite !format_render by assumption.
  induction Hall as [|g segs Hg _ IH]; [reflexivity|].
  destruct g as [c|m]; cbn [render]; rewrite IH; [reflexivity|].
  rewrite format_replace_insert_other by exact Hg. reflexivity.
Qed.

Lemma format_ignores_unused_value_witness :
  format en_formatter "{n:number} for {who}" {[ "extra" := VNone; "n" := VNum (NInt 1200) ]}
  = Ok "1,200 for {who}".
Proof.
  rewrite (format_ignores_unused_value en_formatter "{n:number} for {who}" "extra"
             VNone {[ "n" := VNum (NInt 1200) ]}).
  - vm_compute. reflexivity.
  - compute_done.
  - vm_compute. repeat constructor; discriminate.
Defined.

(** ** The manager *)

Lemma manager_init_state dir : manager_state (Manager.init dir).
Proof. apply reach_init. Qed.

Lemma manager_add_locale_state self code language name kw :
  manager_state self -> manager_state (Manager.add_locale self code language name kw).
Proof. apply reach_add_locale. Qed.

Lemma manager_set_locale_state self code :
  manager_state self -> manager_state (Manager.set_locale self code).1.
Proof. apply reach_set_locale. Qed.

(** X15: the formatting functions of a manager always go through the
    formatter of the current locale: the current locale of a manager is
    always registered, so the branch that returns [str(value)] is never
    taken, and what [format_number], [format_currency] and [format_date]
    return or raise is what the formatter of the current locale returns or
    raises. *)
Theorem manager_formats_with_current_locale `{PyRuntime} (self : LocaleManager) :
  manager_state self ->
  exists f,
    formatters (translator self) !! Manager.get_locale self = Some f
    /\ locales (translator self) !! Manager.get_locale self = Some (fmt_locale f)
    /\ code (fmt_locale f) = Manager.get_locale self
    /\ (forall v decimals,
          Manager.format_number self v decimals = format_number f v decimals)
    /\ (forall v symbol,
          Manager.format_currency self v symbol = format_currency f v symbol)
    /\ (forall v, Manager.format_date self v = format_date f v).
Proof.
  unfold manager_state, Manager.get_locale. intros Hr.
  pose proof (reachable_registry "en" _ Hr) as ((Hc & Hf & _ & Hfl) & _ & Hen).
  assert (Hcur : is_Some (locales (translator self) !! current_locale (translator self))).
  { destruct (reachable_current "en" _ Hr) as [->|Hreg]; assumption. }
  assert (Hfmt : is_Some (formatters (translator self)
                            !! current_locale (translator self))).
  { apply elem_of_dom. rewrite <- Hf. apply elem_of_dom, Hcur. }
  destruct Hfmt as [f Hfmt]. exists f.
  pose proof (Hfl _ _ Hfmt) as Hloc.
  split; [exact Hfmt|]. split; [exact Hloc|].
  split; [apply (reachable_codes "en" _ Hr), Hloc|].
  unfold Manager.format_number, Manager.format_currency, Manager.format_date.
  rewrite Hfmt. repeat split.
Qed.

Lemma manager_formats_with_current_locale_witness :
  Manager.format_currency example_manager (VNum (NFloat f_1234_56)) None
  = Ok "€1.234,56"
  /\ Manager.format_number example_manager (VNum (NInt 1000000)) 0 = Ok "1.000.000"
  /\ Manager.format_number example_manager (VStr "abc") 0 = Raise ValueError.
Proof.
  destruct (manager_formats_with_current_locale example_manager) as (f & Hf & _ & _ & Hn & Hc & _).
  { apply manager_set_locale_state, manager_add_locale_state, manager_init_state. }
  rewrite Hc, !Hn. vm_compute in Hf. injection Hf as <-.
  repeat split; vm_compute; reflexivity.
Defined.

(** ** More on the plural rules *)

(** X16: the categories a language can get.  [zero] and [two] are returned
    for [ar] only, and [few] and [many] for [ar], [ru], [pl] and [uk] only:
    for every other language tag, listed or not, and every count, the
    category is [one] or [other]. *)
Theorem get_rule_categories (language : string) (n : number) :
  match family_of language with
  | Arabic => True
  | Slavic => In (get_rule language n) [ONE; FEW; MANY]
  | EnglishLike | French | Unlisted => In (get_rule language n) [ONE; OTHER]
  end
  /\ (String.eqb language "ar" = false ->
      get_rule language n <> ZERO /\ get_rule language n <> TWO).
Proof.
  rewrite get_rule_table. unfold categorize_spec.
  assert (Har : String.eqb language "ar" = false -> family_of language <> Arabic).
  { unfold family_of. rewrite !str_in_single. intros ->.
    repeat match goal with |- context [if ?b then _ else _] => destruct b end;
      discriminate. }
  destruct (family_of language); cbv zeta;
    repeat match goal with |- context [if ?b then _ else _] => destruct b end;
    (split; [simpl; tauto|]); intros Hne;
    try (split; discriminate); exfalso; apply (Har Hne); reflexivity.
Qed.

Lemma get_rule_categories_witness :
  get_rule "de" (NFloat FNaN) <> ZERO /\ get_rule "de" (NFloat FNaN) <> TWO.
Proof. apply (proj2 (get_rule_categories "de" (NFloat FNaN))). reflexivity. Defined.

Lemma mod_add_100 a : ((a + 100) mod 100 = a mod 100 /\ (a + 100) mod 10 = a mod 10)%N.
Proof.
  split.
  - replace (a + 100)%N with (a + 1 * 100)%N by lia. apply N.Div0.mod_add.
  - replace (a + 100)%N with (a + 10 * 10)%N by lia. apply N.Div0.mod_add.
Qed.

(** X17: on integers the rules for [ru], [pl] and [uk] look at the last two
    digits only: a hundred more gives the same category.  The same holds
    for [ar] from 3 on (0, 1 and 2 have categories of their own, 100, 101
    and 102 do not). *)
Theorem get_rule_last_two_digits (language : string) (z : Z) :
  (0 <= z)%Z ->
  (family_of language = Slavic ->
   get_rule language (NInt (z + 100)) = get_rule language (NInt z))
  /\ (family_of language = Arabic -> (3 <= z)%Z ->
      get_rule language (NInt (z + 100)) = get_rule language (NInt z)).
Proof.
  intros Hz. rewrite !get_rule_int. unfold categorize_int.
  replace (Z.abs_N (z + 100)) with (Z.abs_N z + 100)%N by lia.
  destruct (mod_add_100 (Z.abs_N z)) as [H100 H10].
  split.
  - intros ->. cbv zeta. rewrite H100, H10. reflexivity.
  - intros -> H3. cbv zeta. rewrite H100.
    destruct (N.eqb_spec (Z.abs_N z + 100) 0); [lia|].
    destruct (N.eqb_spec (Z.abs_N z + 100) 1); [lia|].
    destruct (N.eqb_spec (Z.abs_N z + 100) 2); [lia|].
    destruct (N.eqb_spec (Z.abs_N z) 0); [lia|].
    destruct (N.eqb_spec (Z.abs_N z) 1); [lia|].
    destruct (N.eqb_spec (Z.abs_N z) 2); [lia|]. reflexivity.
Qed.

Lemma get_rule_last_two_digits_witness :
  get_rule "ru" (NInt 121) = get_rule "ru" (NInt 21)
  /\ get_rule "ar" (NInt 103) = get_rule "ar" (NInt 3)
  /\ get_rule "ar" (NInt 102) <> get_rule "ar" (NInt 2).
Proof.
  destruct (get_rule_last_two_digits "ru" 21 ltac:(lia)) as [Hru _].
  destruct (get_rule_last_two_digits "ar" 3 ltac:(lia)) as [_ Har].
  split; [apply Hru; reflexivity|].
  split; [apply Har; [reflexivity|lia]|discriminate].
Defined.

(** ** Which locale formats and pluralises *)




(** ** Import and lookup *)

Lemma load_json_app c data kv :
  (load_json c (data ++ [kv])).1
  = (load_item ((load_json c data).1, O) kv).1.
Proof.
  unfold load_json. rewrite fold_left_app. cbn [fold_left]. reflexivity.
Qed.

(** X19: what the import stores last is found.  The last item of the parsed
    mapping, when it is a string, is found under its key without context;
    when it is an object, it is found under its key and the context the
    object names, with the fields of the object. *)
Theorem load_json_then_get (c : MessageCatalog) (data : list (string * entry))
    (k : string) :
  (forall s,
      get (load_json c (data ++ [(k, EStr s)])).1 k "" = Some (simple_message k s))
  /\ (forall o,
        get (load_json c (data ++ [(k, EObj o)])).1 k (default "" (o_context o))
        = Some (message_of_obj k o)).
Proof.
  split.
  - intros s. rewrite load_json_app. unfold load_item; cbn [fst snd].
    unfold get. rewrite messages_add, full_key_plain. cbn.
    rewrite lookup_insert_eq. reflexivity.
  - intros o. rewrite load_json_app. unfold load_item; cbn [fst snd].
    unfold get. rewrite messages_add. cbn [context key message_of_obj].
    rewrite lookup_insert_eq. reflexivity.
Qed.
